(** * Local time of sunset: the notebook's [sunset_time]

    A shallow embedding of the function [sunset_time] of [post.ipynb] and of
    the library calls it is made of (numpy's [linspace], [take] and [nonzero],
    scipy's [argrelmin], pytz's [localize] and [astimezone]).

    Conventions.
    - Altitudes are IEEE binary64 numbers ([float]), with their NaN.
    - Array indices are integers ([Z]), as in Python: a negative index counts
      from the end, an index out of range raises [IndexError].
    - Instants, wall-clock readings and UTC offsets are exact rationals counted
      in hours; the rounding that astropy and [datetime] apply below the
      microsecond is not modelled.
    - The ephemeris (astropy's [get_sun] followed by the transformation to the
      [AltAz] frame) is not part of the notebook: it is a parameter.
    - Instants lie on a uniform time line: adding 24 hours to a midnight
      gives the next midnight only on a day without a leap second, which is
      stated where it is needed.
    - [np.array] applied to a list of index arrays is a list of index arrays,
      whether or not they all have the same length; what is proved of a call
      that returns does not depend on it.
    - Decimal hours are exact rationals too; the bounds stated on them are
      wider than the rounding of the binary64 operations they stand for.

    The second part of the file covers the cells that follow [sunset_time]
    and the body of [plot_sunset_map]: the decimal hours, the median rounded
    to the half hour, the ticks and labels of the colour bar, and the loop
    that colours the county shapes. *)

From Stdlib Require Import String List ZArith QArith Qround Floats Bool Lia Sorted.
Import ListNotations.

Local Open Scope Z_scope.
Local Open Scope list_scope.

(** ** Exceptions and results *)

Inductive exn : Type :=
| IndexError.

Inductive result (A : Type) : Type :=
| Ok (a : A)
| Raise (e : exn).

Arguments Ok {A} a.
Arguments Raise {A} e.

Definition rbind {A B : Type} (r : result A) (k : A -> result B) : result B :=
  match r with
  | Ok a => k a
  | Raise e => Raise e
  end.

Declare Scope result_scope.
Delimit Scope result_scope with result.
Notation "x <- c ;; k" := (rbind c (fun x => k))
  (at level 61, c at next level, right associativity) : result_scope.

Fixpoint rmap {A B : Type} (f : A -> result B) (l : list A) : result (list B) :=
  match l with
  | [] => Ok []
  | a :: l' =>
      (b <- f a ;;
       bs <- rmap f l' ;;
       Ok (b :: bs))%result
  end.

(** ** numpy *)

Module Np.

(** [np.arange(0, n)] *)
Definition arange (n : nat) : list Z := map Z.of_nat (seq 0 n).

(** [x[k]] on a one-dimensional array. *)
Definition getitem {A : Type} (x : list A) (k : Z) : result A :=
  let n := Z.of_nat (length x) in
  let k' := if k <? 0 then k + n else k in
  if (k' <? 0) || (n <=? k') then Raise IndexError
  else match nth_error x (Z.to_nat k') with
       | Some a => Ok a
       | None => Raise IndexError
       end.

(** [x[r, c]] on a two-dimensional array held row by row. *)
Definition getitem2 {A : Type} (x : list (list A)) (r c : Z) : result A :=
  (row <- getitem x r ;; getitem row c)%result.

(** [x.T], iterated: the columns of an array of [ncols] columns. *)
Definition transpose (ncols : nat) (x : list (list float)) : list (list float) :=
  map (fun c => map (fun row => nth c row nan) x) (seq 0 ncols).

(** [data.take(indices, mode="wrap")]: indices are reduced modulo the
    length. *)
Definition take_wrap (data : list float) (indices : list Z) : list float :=
  let n := Z.of_nat (length data) in
  map (fun k => nth (Z.to_nat (k mod n)) data nan) indices.

(** Element-wise binary operation on arrays of the same shape. *)
Fixpoint map2 {A B C : Type} (f : A -> B -> C) (x : list A) (y : list B) : list C :=
  match x, y with
  | a :: x', b :: y' => f a b :: map2 f x' y'
  | _, _ => []
  end.

(** [np.nonzero(mask)[0]]: the indices of the true entries, ascending. *)
Fixpoint nonzero_from (k : Z) (mask : list bool) : list Z :=
  match mask with
  | [] => []
  | b :: mask' =>
      if b then k :: nonzero_from (k + 1) mask' else nonzero_from (k + 1) mask'
  end.

Definition nonzero (mask : list bool) : list Z := nonzero_from 0 mask.

(** [x[mask]]: the entries of [x] where the boolean mask is true. *)
Fixpoint bool_index {A : Type} (x : list A) (mask : list bool) : list A :=
  match x, mask with
  | a :: x', b :: mask' =>
      if b then a :: bool_index x' mask' else bool_index x' mask'
  | _, _ => []
  end.

(** [y[-1] = v] *)
Fixpoint set_last (y : list Q) (v : Q) : list Q :=
  match y with
  | [] => []
  | [_] => [v]
  | a :: y' => a :: set_last y' v
  end.

(** [np.linspace(start, stop, num)], with the default [endpoint=True]. *)
Definition linspace (start stop : Q) (num : nat) : list Q :=
  let div := Z.of_nat num - 1 in
  let delta := (stop - start)%Q in
  let y := map inject_Z (arange num) in
  let y :=
    if 0 <? div then map (fun v => (v * (delta / inject_Z div))%Q) y
    else map (fun v => (v * delta)%Q) y in
  let y := map (fun v => (v + start)%Q) y in
  if (1 <? num)%nat then set_last y stop else y.

End Np.

(** ** scipy.signal *)

Module Scipy.

(** [_boolrelextrema(data, comparator, axis=0, order=1, mode="wrap")]: with
    [order=1] its loop over the shifts runs once, for the shift 1. *)
Definition boolrelextrema (data : list float) (comparator : float -> float -> bool)
  : list bool :=
  let datalen := length data in
  let locs := Np.arange datalen in
  let results := map (fun _ => true) locs in
  let main := Np.take_wrap data locs in
  let plus := Np.take_wrap data (map (fun k => k + 1) locs) in
  let minus := Np.take_wrap data (map (fun k => k - 1) locs) in
  let results := Np.map2 andb results (Np.map2 comparator main plus) in
  let results := Np.map2 andb results (Np.map2 comparator main minus) in
  results.

(** [argrelmin(data, axis=0, mode="wrap")[0]]: [argrelextrema] with
    [np.less] as comparator. *)
Definition argrelmin (data : list float) : list Z :=
  Np.nonzero (boolrelextrema data PrimFloat.ltb).

End Scipy.

(** ** pytz and [datetime] *)

Module Pytz.

(** One entry of a zone's [_transition_info]. *)
Record tzoffset : Type := mk_tzoffset {
  utcoffset : Q;
  dst : Q;
  tzname : string
}.

(** A pytz timezone.  For a [DstTzInfo], [before] is the entry in force
    until the first listed transition and [transitions] lists, in time
    order, each later UTC transition instant with the entry in force from
    that instant on (pytz's [_utc_transition_times] and [_transition_info],
    whose first instant plays no part in [fromutc]). *)
Inductive tzinfo : Type :=
| UTC
| StaticTzInfo (zone : string) (offset : Q)
| DstTzInfo (zone : string) (before : tzoffset) (transitions : list (Q * tzoffset)).

(** An aware [datetime]: the wall-clock reading, the timezone, and the
    entry of the timezone the reading was made with. *)
Record datetime : Type := mk_datetime {
  wall : Q;
  tz : tzinfo;
  info : tzoffset
}.

Definition ZERO : Q := 0.

(** [pytz.timezone("UTC")] *)
Definition utc : tzinfo := UTC.

(** [utc.localize(dt)] on a naive [dt]. *)
Definition localize_utc (dt : Q) : datetime :=
  mk_datetime dt UTC (mk_tzoffset ZERO ZERO "UTC").

(** [self._transition_info[max(0, bisect_right(self._utc_transition_times, dt) - 1)]] *)
Fixpoint transition_info_at (cur : tzoffset) (transitions : list (Q * tzoffset)) (dt : Q)
  : tzoffset :=
  match transitions with
  | [] => cur
  | (t, inf) :: rest =>
      if Qle_bool t dt then transition_info_at inf rest dt else cur
  end.

(** [tz.fromutc(dt)] *)
Definition fromutc (z : tzinfo) (dt : Q) : datetime :=
  match z with
  | UTC => mk_datetime dt UTC (mk_tzoffset ZERO ZERO "UTC")
  | StaticTzInfo zone offset =>
      mk_datetime (dt + offset)%Q z (mk_tzoffset offset ZERO zone)
  | DstTzInfo zone before transitions =>
      let inf := transition_info_at before transitions dt in
      mk_datetime (dt + utcoffset inf)%Q z inf
  end.

(** [tz is pytz.utc]: pytz's UTC is a single object. *)
Definition is_utc (z : tzinfo) : bool :=
  match z with
  | UTC => true
  | _ => false
  end.

(** [self.astimezone(tz)] for a [self] localized by [utc]. *)
Definition astimezone (self : datetime) (z : tzinfo) : datetime :=
  let myoffset := utcoffset (info self) in
  if is_utc z then self
  else fromutc z (wall self - myoffset)%Q.

End Pytz.

(** ** The notebook *)

Record EarthLocation : Type := mk_loc {
  lon : float;
  lat : float
}.

(** The notebook's global variables. *)
Record Notebook : Type := mk_notebook {
  county_locs : list EarthLocation;
  tzs : list Pytz.tzinfo;
  day : Q
}.

(** A computation in the notebook: it may read and write the globals and
    may raise. *)
Definition NB (A : Type) : Type := Notebook -> Notebook * result A.

Definition nb_ret {A : Type} (a : A) : NB A := fun nb => (nb, Ok a).

Definition nb_bind {A B : Type} (c : NB A) (k : A -> NB B) : NB B :=
  fun nb =>
    match c nb with
    | (nb', Ok a) => k a nb'
    | (nb', Raise e) => (nb', Raise e)
    end.

Definition nb_global {A : Type} (f : Notebook -> A) : NB A := fun nb => (nb, Ok (f nb)).

Definition nb_lift {A : Type} (r : result A) : NB A := fun nb => (nb, r).

Declare Scope nb_scope.
Delimit Scope nb_scope with nb.
Notation "x <- c ;; k" := (nb_bind c (fun x => k))
  (at level 61, c at next level, right associativity) : nb_scope.

Fixpoint nb_map {A B : Type} (f : A -> NB B) (l : list A) : NB (list B) :=
  match l with
  | [] => nb_ret []
  | a :: l' =>
      (b <- f a ;;
       bs <- nb_map f l' ;;
       nb_ret (b :: bs))%nb
  end.

(** [enumerate(x)] *)
Definition enumerate {A : Type} (x : list A) : list (Z * A) :=
  combine (Np.arange (length x)) x.

Section SunsetTime.

(** The Sun's altitude in degrees at a location and a UTC instant. *)
Variable sun_alt : EarthLocation -> Q -> float.

(** [time + np.linspace(0, 24, n_time) * u.hour] *)
Definition time_grid (time : Q) (n_time : nat) : list Q :=
  map (fun h => (time + h)%Q) (Np.linspace 0 24 n_time).

(** [sun_altaz.alt.degree], of shape (times, locations). *)
Definition alt_degree (grid : list Q) (locs : list EarthLocation) : list (list float) :=
  map (fun t => map (fun loc => sun_alt loc t) locs) grid.

(** [sun_altaz.obstime.datetime], of shape (times, locations). *)
Definition obstime_datetime (grid : list Q) (locs : list EarthLocation) : list (list Q) :=
  map (fun t => map (fun _ => t) locs) grid.

(** [a**2] *)
Definition sq (a : float) : float := (a * a)%float.

(** The array that is compared with 0 inside the [try]. *)
Definition slopes (alt : list (list float)) (i : Z) (idx : list Z) : result (list float) :=
  rmap (fun j =>
          (a <- Np.getitem2 alt (Z.min (j + 1) (Z.of_nat (length alt) - 1)) i ;;
           b <- Np.getitem2 alt (Z.max (j - 1) 0) i ;;
           Ok (a - b)%float)%result) idx.

(** The body of the [try]: the index appended to [sunset_idx]. *)
Definition try_sunset_idx (alt : list (list float)) (i : Z) (idx : list Z) : result Z :=
  (d <- slopes alt i idx ;;
   Np.getitem (Np.bool_index idx (map (fun x => (x <? 0)%float) d)) 0)%result.

(** One turn of the loop over [enumerate(min_idx)], on the pair
    ([sunset_idx], [good_i]). *)
Definition loop_body (alt : list (list float)) (acc : list Z * list Z) (entry : Z * list Z)
  : list Z * list Z :=
  let '(sunset_idx, good_i) := acc in
  let '(i, idx) := entry in
  match try_sunset_idx alt i idx with
  | Ok j => (sunset_idx ++ [j], good_i ++ [i])
  | Raise IndexError => (sunset_idx, good_i)
  end.

(** [utc.localize(sun_time[j, i]).astimezone(tzs[i])] *)
Definition local_sunset (utc : Pytz.tzinfo) (sun_time : list (list Q)) (ij : Z * Z)
  : NB Pytz.datetime :=
  let '(i, j) := ij in
  (dt <- nb_lift (Np.getitem2 sun_time j i) ;;
   table <- nb_global tzs ;;
   z <- nb_lift (Np.getitem table i) ;;
   nb_ret (Pytz.astimezone (Pytz.localize_utc dt) z))%nb.

(** The list of index arrays held by [min_idx]. *)
Definition min_idx (alt : list (list float)) (ncols : nat) : list (list Z) :=
  map (fun a => Scipy.argrelmin (map sq a)) (Np.transpose ncols alt).

Definition sunset_time (locs : list EarthLocation) (time : Q) (n_time : nat)
  : NB (list Z * list Pytz.datetime) :=
  let utc := Pytz.utc in
  let grid := time_grid time n_time in
  let alt := alt_degree grid locs in
  let '(sunset_idx, good_i) :=
    fold_left (loop_body alt) (enumerate (min_idx alt (length locs))) ([], []) in
  let sun_time := obstime_datetime grid locs in
  (sunsets <- nb_map (local_sunset utc sun_time) (combine good_i sunset_idx) ;;
   nb_ret (good_i, sunsets))%nb.

End SunsetTime.

(** ** What the theorems are stated with *)

(** The entry of a two-dimensional array at a row and a column in range. *)
Definition cell (alt : list (list float)) (r c : Z) : float :=
  nth (Z.to_nat c) (nth (Z.to_nat r) alt []) nan.

(** The slope test of [sunset_time] at the candidate [j] of position [i]. *)
Definition decreasing (alt : list (list float)) (i j : Z) : bool :=
  (cell alt (Z.min (j + 1) (Z.of_nat (length alt) - 1)) i
   - cell alt (Z.max (j - 1) 0) i <? 0)%float.

(** The entry of a one-dimensional array at an index in range. *)
Definition at_ (v : list float) (k : Z) : float := nth (Z.to_nat k) v nan.

(** The altitudes of one location over the grid: a column of the table. *)
Definition column (sun_alt : EarthLocation -> Q -> float) (grid : list Q) (loc : EarthLocation)
  : list float :=
  map (sun_alt loc) grid.

(** The slope test read on a column. *)
Definition col_decreasing (col : list float) (j : Z) : bool :=
  (at_ col (Z.min (j + 1) (Z.of_nat (length col) - 1)) - at_ col (Z.max (j - 1) 0) <? 0)%float.

(** The sunset index of a column: the first strict circular minimum of the
    squared altitudes that passes the slope test. *)
Definition column_sunset (col : list float) : option Z :=
  hd_error (filter (col_decreasing col) (Scipy.argrelmin (map sq col))).

(** The pairs (position, sunset index) of the positions that have one, in the
    order of the positions. *)
Definition winners (sun_alt : EarthLocation -> Q -> float) (grid : list Q)
  (locs : list EarthLocation) : list (Z * Z) :=
  flat_map (fun '(i, loc) =>
              match column_sunset (column sun_alt grid loc) with
              | Some j => [(i, j)]
              | None => []
              end) (enumerate locs).

(** The pairs (position, index) the loop of [sunset_time] appends, read off
    the list it runs over. *)
Definition picks (alt : list (list float)) (entries : list (Z * list Z)) : list (Z * Z) :=
  flat_map (fun '(i, idx) =>
              match try_sunset_idx alt i idx with
              | Ok j => [(i, j)]
              | Raise _ => []
              end) entries.

(** [utc.localize(sun_time[j, i]).astimezone(tzs[i])] for a pair in range. *)
Definition local_time (grid : list Q) (table : list Pytz.tzinfo) (ij : Z * Z) : Pytz.datetime :=
  Pytz.astimezone (Pytz.localize_utc (nth (Z.to_nat (snd ij)) grid 0%Q))
    (nth (Z.to_nat (fst ij)) table Pytz.UTC).

(** The position of a pair is an index of the timezone table. *)
Definition in_table (table : list Pytz.tzinfo) (ij : Z * Z) : bool :=
  fst ij <? Z.of_nat (length table).

(** A strict circular minimum of a sequence: below both neighbours, the
    neighbours of the first and last entries being taken around the ends. *)
Definition strict_circular_minimum (value : list float) (i : Z) : Prop :=
  let n := Z.of_nat (length value) in
  0 <= i < n /\
  (at_ value i <? at_ value ((i - 1 + n) mod n))%float = true /\
  (at_ value i <? at_ value ((i + 1) mod n))%float = true.

(** A circular minimum in the non-strict sense: no greater than both
    neighbours. *)
Definition nonstrict_circular_minimum (value : list float) (i : Z) : Prop :=
  let n := Z.of_nat (length value) in
  0 <= i < n /\
  (at_ value i <=? at_ value ((i - 1 + n) mod n))%float = true /\
  (at_ value i <=? at_ value ((i + 1) mod n))%float = true.

(** The entry of a transition table in force at the instant [t]: the entry
    of the latest transition that is not after [t], and the entry [before]
    when every transition is after [t]. *)
Inductive entry_in_force (before : Pytz.tzoffset) (transitions : list (Q * Pytz.tzoffset))
  (t : Q) : Pytz.tzoffset -> Prop :=
| force_before :
    (forall t' inf', In (t', inf') transitions -> (t < t')%Q) ->
    entry_in_force before transitions t before
| force_since (earlier later : list (Q * Pytz.tzoffset)) (t0 : Q) (inf : Pytz.tzoffset) :
    transitions = earlier ++ (t0, inf) :: later ->
    (forall t' inf', In (t', inf') earlier -> (t' <= t)%Q) ->
    (t0 <= t)%Q ->
    (forall t' inf', In (t', inf') later -> (t < t')%Q) ->
    entry_in_force before transitions t inf.

(** The offset, daylight-saving adjustment and name a timezone prescribes at
    the UTC instant [t]. *)
Definition in_force (z : Pytz.tzinfo) (t : Q) (inf : Pytz.tzoffset) : Prop :=
  match z with
  | Pytz.UTC => inf = Pytz.mk_tzoffset 0 0 "UTC"
  | Pytz.StaticTzInfo zone offset => inf = Pytz.mk_tzoffset offset 0 zone
  | Pytz.DstTzInfo _ before transitions => entry_in_force before transitions t inf
  end.

(** The transitions of a timezone are listed in time order. *)
Definition sorted_zone (z : Pytz.tzinfo) : Prop :=
  match z with
  | Pytz.DstTzInfo _ _ transitions =>
      StronglySorted (fun a b => (fst a <= fst b)%Q) transitions
  | _ => True
  end.

(** A timezone whose offset from UTC is zero at all times. *)
Definition fixed_zero_offset (z : Pytz.tzinfo) : Prop :=
  match z with
  | Pytz.UTC => True
  | Pytz.StaticTzInfo _ offset => (offset == 0)%Q
  | Pytz.DstTzInfo _ before transitions =>
      (Pytz.utcoffset before == 0)%Q
      /\ Forall (fun p => (Pytz.utcoffset (snd p) == 0)%Q) transitions
  end.

(** The instant a time of day is read from: hours since the last midnight. *)
Definition time_of_day (t : Q) : Q := (t - 24 * inject_Z (Qfloor (t / 24)))%Q.

(** Midnight UTC of the day numbered [d]. *)
Definition midnight (d : Z) : Q := (24 * inject_Z d)%Q.

(** ** A small run *)

Module Demo.

(** Altitudes at 0h, 3h, ..., 21h UTC.  [table_day]: sunrise near 6h and
    sunset near 18h.  [table_up]: the Sun stays up and is lowest at 12h. *)
Definition table_day : list float := [-40; -20; 2; 30; 50; 30; -1; -20]%float.
Definition table_up : list float := [18; 16; 14; 12; 10; 12; 14; 16]%float.

Definition sun_alt (loc : EarthLocation) (t : Q) : float :=
  let h := Z.to_nat ((Qfloor t mod 24) / 3) in
  if PrimFloat.is_nan (lat loc) || PrimFloat.is_nan (lon loc) then nan
  else if (80 <? lat loc)%float then nth h table_up nan
  else nth h table_day nan.

Definition est : Pytz.tzoffset := Pytz.mk_tzoffset (-5) 0 "EST".
Definition edt : Pytz.tzoffset := Pytz.mk_tzoffset (-4) 1 "EDT".

(** A zone on standard time until hour 100, on daylight time from then
    until hour 5000, and on standard time again afterwards. *)
Definition eastern : Pytz.tzinfo :=
  Pytz.DstTzInfo "US/Eastern" est [(100, edt); (5000, est)]%Q.

Definition here : EarthLocation := mk_loc (-74) 40.5.
Definition pole : EarthLocation := mk_loc 0 90.
Definition nowhere : EarthLocation := mk_loc nan nan.

Definition locs : list EarthLocation := [here; pole; nowhere; here].

Definition nb : Notebook :=
  mk_notebook locs
    [eastern; Pytz.UTC; Pytz.UTC; Pytz.StaticTzInfo "Etc/GMT+5" (-5)] (midnight 10).

(** The grid of day 10 with nine samples, and what [sunset_time] returns on
    it: the first and the last location have a sunset at sample 6. *)
Definition grid : list Q := time_grid (midnight 10) 9.

Definition good_i : list Z := [0; 3].

Definition sunsets : list Pytz.datetime :=
  [local_time grid (tzs nb) (0, 6); local_time grid (tzs nb) (3, 6)].

End Demo.

(** ** The rest of the notebook: decimal hours, colour scale, county patches

    The cells after [sunset_time] and the body of [plot_sunset_map] turn the
    timestamps into decimal hours, centre a colour scale on their median
    rounded to the half hour, colour the county shapes, and label the colour
    bar.  Hours are exact rationals, as the instants are; pandas is taken at
    version 1.0 or later (a missing label raises [KeyError]).  Basemap and
    matplotlib are not modelled: a patch is the pair of a shape's index and
    the value its colour is computed from. *)

Module Plot.

(** Exceptions: those of numpy indexing, and two more. *)
Inductive exc : Type :=
| Numpy (e : exn)
| ValueError
| KeyError.

Inductive outcome (A : Type) : Type :=
| Done (a : A)
| Fail (e : exc).

Arguments Done {A} a.
Arguments Fail {A} e.

Definition obind {A B : Type} (o : outcome A) (k : A -> outcome B) : outcome B :=
  match o with
  | Done a => k a
  | Fail e => Fail e
  end.

Declare Scope outcome_scope.
Delimit Scope outcome_scope with outcome.
Notation "x <- c ;; k" := (obind c (fun x => k))
  (at level 61, c at next level, right associativity) : outcome_scope.

Definition lift {A : Type} (r : result A) : outcome A :=
  match r with
  | Ok a => Done a
  | Raise e => Fail (Numpy e)
  end.

Fixpoint omap {A B : Type} (f : A -> outcome B) (l : list A) : outcome (list B) :=
  match l with
  | [] => Done []
  | a :: l' =>
      (b <- f a ;;
       bs <- omap f l' ;;
       Done (b :: bs))%outcome
  end.

(** The whole seconds of a timestamp's wall-clock reading since its last
    midnight, and the fields [s.hour], [s.minute], [s.second] read off them. *)
Definition whole_seconds (s : Pytz.datetime) : Z :=
  Qfloor (3600 * time_of_day (Pytz.wall s)).

Definition hour (s : Pytz.datetime) : Z := whole_seconds s / 3600.
Definition minute (s : Pytz.datetime) : Z := (whole_seconds s / 60) mod 60.
Definition second (s : Pytz.datetime) : Z := whole_seconds s mod 60.

(** [np.array([s.hour + s.minute / 60 + s.second / 3600 for s in sunsets])] *)
Definition sunset_hours (sunsets : list Pytz.datetime) : list Q :=
  map (fun s => (inject_Z (hour s) + inject_Z (minute s) / 60
                 + inject_Z (second s) / 3600)%Q) sunsets.

(** Sorting, for the median. *)
Fixpoint insert (x : Q) (l : list Q) : list Q :=
  match l with
  | [] => [x]
  | y :: l' => if Qle_bool x y then x :: l else y :: insert x l'
  end.

Definition sort (l : list Q) : list Q := fold_right insert [] l.

(** [np.median(a)]: the middle entry of the sorted values, or the mean of the
    two middle ones; [None] stands for the NaN of an empty array. *)
Definition median (a : list Q) : option Q :=
  let n := length a in
  let s := sort a in
  if (n =? 0)%nat then None
  else if Nat.even n
       then Some ((nth (n / 2 - 1) s 0 + nth (n / 2) s 0) / 2)%Q
       else Some (nth (n / 2) s 0%Q).

(** [np.round(x)]: to the nearest integer, a tie going to the even one. *)
Definition round_half_even (x : Q) : Z :=
  let f := Qfloor x in
  match (x - inject_Z f ?= 1 # 2)%Q with
  | Lt => f
  | Gt => f + 1
  | Eq => if Z.even f then f else f + 1
  end.

(** [0.5 * np.round(np.median(sunset_hours) / 0.5)] *)
Definition med_hour (hours : list Q) : option Q :=
  match median hours with
  | Some m => Some ((1 # 2) * inject_Z (round_half_even (m / (1 # 2))))%Q
  | None => None
  end.

(** [np.arange(start, stop, step)] *)
Definition arange (start stop step : Q) : list Q :=
  let n := Z.to_nat (Qceiling ((stop - start) / step)) in
  map (fun i => (start + inject_Z (Z.of_nat i) * step)%Q) (seq 0 n).

(** [np.arange(med_hour - 1, med_hour + 1 + 0.1, 0.5)] *)
Definition cb_ticks (med : Q) : list Q :=
  arange (med - 1) (med + 1 + (1 # 10)) (1 # 2).

(** [int(x)]: truncation towards zero. *)
Definition int (x : Q) : Z := Z.quot (Qnum x) (Z.pos (Qden x)).

(** [datetime.time(hour, minute)] *)
Definition time (h m : Z) : outcome (Z * Z) :=
  if (0 <=? h) && (h <=? 23) && (0 <=? m) && (m <=? 59) then Done (h, m)
  else Fail ValueError.

(** A number below 100 on two digits. *)
Definition two_digits (n : Z) : string :=
  String (Ascii.ascii_of_nat (48 + Z.to_nat (n / 10)))
    (String (Ascii.ascii_of_nat (48 + Z.to_nat (n mod 10))) EmptyString).

(** [t.strftime("%H:%M")] *)
Definition strftime_HM (t : Z * Z) : string :=
  (two_digits (fst t) ++ ":" ++ two_digits (snd t))%string.

(** [datetime.time(int(x), int(60 * (x - np.floor(x)))).strftime("%H:%M")] *)
Definition cb_label (x : Q) : outcome string :=
  (t <- time (int x) (int (60 * (x - inject_Z (Qfloor x)))) ;;
   Done (strftime_HM t))%outcome.

(** The list [cb_labels]. *)
Definition cb_labels (ticks : list Q) : outcome (list string) := omap cb_label ticks.

(** [column[labels]] on a pandas column with the default index. *)
Definition series_getitem (column : list Z) (labels : list Z) : outcome (list Z) :=
  omap (fun l =>
          if (0 <=? l) && (l <? Z.of_nat (length column))
          then Done (nth (Z.to_nat l) column 0)
          else Fail KeyError) labels.

(** [x in a] on a numpy array. *)
Definition contains (x : Z) (a : list Z) : bool := existsb (Z.eqb x) a.

(** One turn of the loop over [enumerate(m.counties_info)], [geoid] being the
    shape's [int(info["GEOID"])]: the patches it adds. *)
Definition county_patch (county_geoid good_i : list Z) (hours : list Q) (entry : Z * Z)
  : outcome (list (Z * Q)) :=
  let '(i, geoid) := entry in
  (selected <- series_getitem county_geoid good_i ;;
   let match_idx := Np.nonzero (map (fun g => g =? geoid) selected) in
   match match_idx with
   | k0 :: _ =>
       if contains k0 good_i then
         picked <- omap (fun k => lift (Np.getitem hours k)) match_idx ;;
         v <- lift (Np.getitem picked 0) ;;
         Done [(i, v)]
       else Done []
   | [] => Done []
   end)%outcome.

(** The loop: the patches added to the axes, in order. *)
Fixpoint county_patches_from (county_geoid good_i : list Z) (hours : list Q)
  (entries : list (Z * Z)) : outcome (list (Z * Q)) :=
  match entries with
  | [] => Done []
  | entry :: rest =>
      (p <- county_patch county_geoid good_i hours entry ;;
       ps <- county_patches_from county_geoid good_i hours rest ;;
       Done (p ++ ps))%outcome
  end.

Definition county_patches (county_geoid good_i : list Z) (hours : list Q)
  (counties_info : list Z) : outcome (list (Z * Q)) :=
  county_patches_from county_geoid good_i hours (enumerate counties_info).

(** What the theorems on this part are stated with. *)

(** The hours a label reads as: [HH + MM / 60]. *)
Definition digit (c : Ascii.ascii) : option Z :=
  let n := Ascii.nat_of_ascii c in
  if (48 <=? n)%nat && (n <=? 57)%nat then Some (Z.of_nat n - 48) else None.

Definition label_hours (label : string) : option Q :=
  match label with
  | String a (String b (String c (String d (String e EmptyString)))) =>
      match digit a, digit b, digit d, digit e with
      | Some h1, Some h0, Some m1, Some m0 =>
          if Ascii.eqb c (Ascii.ascii_of_nat 58)
          then Some (inject_Z (10 * h1 + h0) + inject_Z (10 * m1 + m0) / 60)%Q
          else None
      | _, _, _, _ => None
      end
  | _ => None
  end.

(** Position [k] of [good_i] is the first whose county has the GEOID [g]. *)
Definition first_match (county_geoid good_i : list Z) (g : Z) (k : Z) : Prop :=
  0 <= k < Z.of_nat (length good_i)
  /\ nth (Z.to_nat (nth (Z.to_nat k) good_i 0)) county_geoid 0 = g
  /\ (forall k', 0 <= k' < k ->
                 nth (Z.to_nat (nth (Z.to_nat k') good_i 0)) county_geoid 0 <> g).

(** The patches one turn of the loop adds when nothing raises. *)
Definition patch_of (county_geoid good_i : list Z) (hours : list Q) (entry : Z * Z)
  : list (Z * Q) :=
  let '(i, geoid) := entry in
  match Np.nonzero (map (fun l => nth (Z.to_nat l) county_geoid 0 =? geoid) good_i) with
  | k0 :: _ =>
      if contains k0 good_i then [(i, nth (Z.to_nat k0) hours 0%Q)] else []
  | [] => []
  end.

End Plot.

(** ** [sunset_time] with its lists in a store

    The function builds its two result lists by [append] on list objects it
    creates.  Here the list objects live in a store, next to the notebook's
    globals, so that a write to an object or to a global is a visible
    event.  The store-free [sunset_time] above is what this one computes. *)

Module Mutable.

(** What the function can touch: the notebook's globals and the list objects
    of the process, a list object being known by its address. *)
Record Store : Type := mk_store {
  globals : Notebook;
  lists : list (list Z)
}.

Definition Py (A : Type) : Type := Store -> Store * result A.

Definition ret {A : Type} (a : A) : Py A := fun s => (s, Ok a).

Definition bind {A B : Type} (c : Py A) (k : A -> Py B) : Py B :=
  fun s =>
    match c s with
    | (s', Ok a) => k a s'
    | (s', Raise e) => (s', Raise e)
    end.

Definition lift {A : Type} (r : result A) : Py A := fun s => (s, r).

Definition global {A : Type} (f : Notebook -> A) : Py A :=
  fun s => (s, Ok (f (globals s))).

Declare Scope py_scope.
Delimit Scope py_scope with py.
Notation "x <- c ;; k" := (bind c (fun x => k))
  (at level 61, c at next level, right associativity) : py_scope.

(** [[]]: a new list object, at a fresh address. *)
Definition new_list : Py nat :=
  fun s => (mk_store (globals s) (lists s ++ [[]]), Ok (length (lists s))).

Fixpoint update (a : nat) (f : list Z -> list Z) (objects : list (list Z))
  : list (list Z) :=
  match objects, a with
  | [], _ => []
  | l :: rest, O => f l :: rest
  | l :: rest, S a' => l :: update a' f rest
  end.

(** [l.append(x)] on the list object at address [a]. *)
Definition append (a : nat) (x : Z) : Py unit :=
  fun s => (mk_store (globals s) (update a (fun l => l ++ [x]) (lists s)), Ok tt).

(** [np.array(l)] of the list object at address [a]. *)
Definition array (a : nat) : Py (list Z) :=
  fun s => (s, Ok (nth a (lists s) [])).

(** [try: body / except IndexError: continue] *)
Definition try_except_IndexError (body : Py unit) : Py unit :=
  fun s =>
    match body s with
    | (s', Raise IndexError) => (s', Ok tt)
    | (s', Ok u) => (s', Ok u)
    end.

Fixpoint for_each {A : Type} (body : A -> Py unit) (l : list A) : Py unit :=
  match l with
  | [] => ret tt
  | a :: l' => (_ <- body a ;; for_each body l')%py
  end.

Fixpoint map_py {A B : Type} (f : A -> Py B) (l : list A) : Py (list B) :=
  match l with
  | [] => ret []
  | a :: l' =>
      (b <- f a ;;
       bs <- map_py f l' ;;
       ret (b :: bs))%py
  end.

(** One turn of the loop over [enumerate(min_idx)]: the index is worked out
    first, then appended to [sunset_idx], then the position to [good_i]. *)
Definition loop_turn (alt : list (list float)) (sunset_idx good_i : nat)
  (entry : Z * list Z) : Py unit :=
  let '(i, idx) := entry in
  try_except_IndexError
    (j <- lift (try_sunset_idx alt i idx) ;;
     _ <- append sunset_idx j ;;
     append good_i i)%py.

(** [utc.localize(sun_time[j, i]).astimezone(tzs[i])] *)
Definition local_sunset (utc : Pytz.tzinfo) (sun_time : list (list Q)) (ij : Z * Z)
  : Py Pytz.datetime :=
  let '(i, j) := ij in
  (dt <- lift (Np.getitem2 sun_time j i) ;;
   table <- global tzs ;;
   z <- lift (Np.getitem table i) ;;
   ret (Pytz.astimezone (Pytz.localize_utc dt) z))%py.

Definition sunset_time (sun_alt : EarthLocation -> Q -> float)
  (locs : list EarthLocation) (time : Q) (n_time : nat)
  : Py (list Z * list Pytz.datetime) :=
  let utc := Pytz.utc in
  let grid := time_grid time n_time in
  let alt := alt_degree sun_alt grid locs in
  let candidates := min_idx alt (length locs) in
  (sunset_idx <- new_list ;;
   good_i <- new_list ;;
   _ <- for_each (loop_turn alt sunset_idx good_i) (enumerate candidates) ;;
   sunset_idx <- array sunset_idx ;;
   good_i <- array good_i ;;
   let sun_time := obstime_datetime grid locs in
   sunsets <- map_py (local_sunset utc sun_time) (combine good_i sunset_idx) ;;
   ret (good_i, sunsets))%py.

End Mutable.

(** ** An ephemeris that does not read the longitude *)

Module DemoNaN.

(** Altitudes that depend on the latitude and on the time only: a location
    whose longitude is NaN still has finite altitudes. *)
Definition sun_alt (loc : EarthLocation) (t : Q) : float :=
  let h := Z.to_nat ((Qfloor t mod 24) / 3) in
  if PrimFloat.is_nan (lat loc) then nan else nth h Demo.table_day nan.

Definition lost : EarthLocation := mk_loc nan 40.5.

End DemoNaN.

(** ** More of what the theorems are stated with *)

(** The candidate [j] of position [i] that [sunset_time] takes for the
    sunset: it passes the slope test, and no candidate that passes it has a
    smaller index. *)
Definition first_decreasing (alt : list (list float)) (i : Z) (idx : list Z) (j : Z) : Prop :=
  In j idx /\ decreasing alt i j = true
  /\ (forall j', In j' idx -> decreasing alt i j' = true -> j <= j').

(** [np.arange(med_hour - 1, med_hour + 1 + 0.1, 0.5)] on what [med_hour]
    holds; [np.arange] raises [ValueError] on NaN bounds. *)
Definition cb_ticks_of (med_hour : option Q) : Plot.outcome (list Q) :=
  match med_hour with
  | Some med => Plot.Done (Plot.cb_ticks med)
  | None => Plot.Fail Plot.ValueError
  end.

(** ** Facts about the numpy and scipy operations *)

Lemma length_arange (n : nat) : length (Np.arange n) = n.
Proof. unfold Np.arange. now rewrite length_map, length_seq. Qed.

Lemma nth_arange (n i : nat) (d : Z) :
  (i < n)%nat -> nth i (Np.arange n) d = Z.of_nat i.
Proof.
  intros Hi. unfold Np.arange.
  rewrite (nth_indep _ d (Z.of_nat 0)) by now rewrite length_map, length_seq.
  rewrite map_nth, seq_nth by assumption. reflexivity.
Qed.

Lemma in_arange (n : nat) (k : Z) :
  In k (Np.arange n) <-> 0 <= k < Z.of_nat n.
Proof.
  unfold Np.arange. rewrite in_map_iff. split.
  - intros (i & <- & Hi). apply in_seq in Hi. lia.
  - intros Hk. exists (Z.to_nat k). split; [lia | apply in_seq; lia].
Qed.

Lemma getitem_ok {A : Type} (x : list A) (k : Z) (d : A) :
  0 <= k < Z.of_nat (length x) ->
  Np.getitem x k = Ok (nth (Z.to_nat k) x d).
Proof.
  intros Hk. unfold Np.getitem.
  destruct (Z.ltb_spec k 0) as [Hneg | _]; [lia |].
  destruct (Z.ltb_spec k 0) as [Hneg | _]; [lia |].
  destruct (Z.leb_spec (Z.of_nat (length x)) k) as [Hbig | _]; [lia |].
  cbn [orb].
  destruct (nth_error x (Z.to_nat k)) as [a |] eqn:E.
  - now rewrite (nth_error_nth _ _ d E).
  - apply nth_error_None in E. lia.
Qed.

Lemma getitem_beyond {A : Type} (x : list A) (k : Z) :
  Z.of_nat (length x) <= k -> Np.getitem x k = Raise IndexError.
Proof.
  intros Hk. unfold Np.getitem.
  destruct (Z.ltb_spec k 0) as [Hneg | _]; [lia |].
  destruct (Z.ltb_spec k 0) as [Hneg | _]; [lia |].
  destruct (Z.leb_spec (Z.of_nat (length x)) k) as [_ | Hsmall]; [| lia].
  reflexivity.
Qed.

Lemma getitem_first {A : Type} (x : list A) :
  Np.getitem x 0 = match x with [] => Raise IndexError | a :: _ => Ok a end.
Proof. destruct x as [| a x]; [reflexivity |]. unfold Np.getitem. cbn. reflexivity. Qed.

Lemma length_map2 {A B C : Type} (f : A -> B -> C) (x : list A) (y : list B) :
  length (Np.map2 f x y) = Nat.min (length x) (length y).
Proof.
  revert y. induction x as [| a x IH]; intros [| b y]; cbn; try reflexivity.
  now rewrite IH.
Qed.

Lemma nth_map2 {A B C : Type} (f : A -> B -> C) (x : list A) (y : list B)
  (i : nat) (da : A) (db : B) (dc : C) :
  (i < length x)%nat -> (i < length y)%nat ->
  nth i (Np.map2 f x y) dc = f (nth i x da) (nth i y db).
Proof.
  revert y i. induction x as [| a x IH]; intros [| b y] [| i] Hx Hy; cbn in *; try lia.
  - reflexivity.
  - apply IH; lia.
Qed.

Lemma in_nonzero_from (mask : list bool) (k j : Z) :
  In j (Np.nonzero_from k mask) <->
  k <= j < k + Z.of_nat (length mask) /\ nth (Z.to_nat (j - k)) mask false = true.
Proof.
  revert k. induction mask as [| b mask IH]; intros k; cbn [Np.nonzero_from length].
  - split; [intros [] | intros [H _]; lia].
  - assert (Hstep : In j (Np.nonzero_from (k + 1) mask) <->
                    k + 1 <= j < k + Z.of_nat (S (length mask)) /\
                    nth (Z.to_nat (j - k)) (b :: mask) false = true).
    { rewrite IH. split; intros [Hr Hn]; (split; [lia |]).
      - replace (Z.to_nat (j - k)) with (S (Z.to_nat (j - (k + 1)))) by lia. exact Hn.
      - replace (Z.to_nat (j - k)) with (S (Z.to_nat (j - (k + 1)))) in Hn by lia. exact Hn. }
    destruct b; cbn [In]; rewrite Hstep.
    + split.
      * intros [<- | [Hr Hn]]; [| split; [lia | exact Hn]].
        split; [lia |]. now rewrite Z.sub_diag.
      * intros [Hr Hn]. destruct (Z.eq_dec k j) as [-> | Hne]; [now left | right].
        split; [lia | exact Hn].
    + split.
      * intros [Hr Hn]. split; [lia | exact Hn].
      * intros [Hr Hn]. destruct (Z.eq_dec k j) as [-> | Hne].
        -- rewrite Z.sub_diag in Hn. discriminate Hn.
        -- split; [lia | exact Hn].
Qed.

Lemma nonzero_from_sorted (mask : list bool) (k : Z) :
  StronglySorted Z.lt (Np.nonzero_from k mask).
Proof.
  revert k. induction mask as [| b mask IH]; intros k; cbn [Np.nonzero_from].
  - constructor.
  - destruct b; [| apply IH].
    constructor; [apply IH |].
    apply Forall_forall. intros j Hj. apply in_nonzero_from in Hj. lia.
Qed.

Lemma length_take_wrap (data : list float) (indices : list Z) :
  length (Np.take_wrap data indices) = length indices.
Proof. unfold Np.take_wrap. apply length_map. Qed.

Lemma nth_take_wrap (data : list float) (g : Z -> Z) (n i : nat) :
  (i < n)%nat ->
  nth i (Np.take_wrap data (map g (Np.arange n))) nan =
  at_ data (g (Z.of_nat i) mod Z.of_nat (length data)).
Proof.
  intros Hi. unfold Np.take_wrap, at_.
  rewrite map_map.
  set (h := fun k => nth (Z.to_nat (g k mod Z.of_nat (length data))) data nan).
  rewrite (nth_indep _ nan (h 0)) by now rewrite length_map, length_arange.
  rewrite map_nth. unfold h. now rewrite nth_arange.
Qed.

Ltac array_length :=
  repeat (rewrite length_map2 || rewrite length_take_wrap || rewrite length_map
          || rewrite length_arange);
  lia.

Lemma length_boolrelextrema (data : list float) (cmp : float -> float -> bool) :
  length (Scipy.boolrelextrema data cmp) = length data.
Proof.
  unfold Scipy.boolrelextrema. array_length.
Qed.

Lemma nth_boolrelextrema (data : list float) (cmp : float -> float -> bool) (i : nat) :
  (i < length data)%nat ->
  let n := Z.of_nat (length data) in
  nth i (Scipy.boolrelextrema data cmp) false =
  cmp (at_ data (Z.of_nat i)) (at_ data ((Z.of_nat i + 1) mod n))
  && cmp (at_ data (Z.of_nat i)) (at_ data ((Z.of_nat i - 1) mod n)).
Proof.
  intros Hi n. unfold Scipy.boolrelextrema.
  assert (Hmain : forall k, (k < length data)%nat ->
            nth k (Np.take_wrap data (Np.arange (length data))) nan = at_ data (Z.of_nat k)).
  { intros k Hk. rewrite <- (map_id (Np.arange (length data))).
    rewrite (nth_take_wrap data (fun z => z) (length data) k Hk).
    f_equal. apply Z.mod_small. lia. }
  rewrite (nth_map2 andb _ _ i false false false) by array_length.
  rewrite (nth_map2 andb _ _ i false false false) by array_length.
  rewrite (nth_indep _ false ((fun _ : Z => true) 0)) by array_length.
  rewrite (map_nth (fun _ : Z => true) _ 0). cbn [andb].
  rewrite !(nth_map2 cmp _ _ i nan nan false) by array_length.
  rewrite (Hmain i Hi).
  rewrite (nth_take_wrap data (fun k => k + 1) (length data) i Hi).
  rewrite (nth_take_wrap data (fun k => k - 1) (length data) i Hi).
  reflexivity.
Qed.

(** The candidates of [argrelmin]: the indices strictly below both
    neighbours, the neighbours being taken around the ends. *)
Lemma in_argrelmin (data : list float) (i : Z) :
  let n := Z.of_nat (length data) in
  In i (Scipy.argrelmin data) <->
  0 <= i < n /\
  (at_ data i <? at_ data ((i + 1) mod n))%float = true /\
  (at_ data i <? at_ data ((i - 1) mod n))%float = true.
Proof.
  intros n. unfold Scipy.argrelmin, Np.nonzero.
  rewrite in_nonzero_from, length_boolrelextrema, Z.sub_0_r. fold n.
  split.
  - intros [Hr Hn]. split; [lia |].
    rewrite nth_boolrelextrema in Hn by lia.
    rewrite Z2Nat.id in Hn by lia. fold n in Hn.
    now apply andb_true_iff in Hn.
  - intros (Hr & H1 & H2). split; [lia |].
    rewrite nth_boolrelextrema by lia.
    rewrite Z2Nat.id by lia. fold n.
    now rewrite H1, H2.
Qed.

Lemma argrelmin_sorted (data : list float) : StronglySorted Z.lt (Scipy.argrelmin data).
Proof. apply nonzero_from_sorted. Qed.

Lemma bool_index_map {A : Type} (f : A -> bool) (x : list A) :
  Np.bool_index x (map f x) = filter f x.
Proof.
  induction x as [| a x IH]; cbn; [reflexivity |].
  rewrite IH. reflexivity.
Qed.

(** ** The altitude table and its columns *)

Lemma nth_map_in {A B : Type} (f : A -> B) (l : list A) (i : nat) (d : A) (d' : B) :
  (i < length l)%nat -> nth i (map f l) d' = f (nth i l d).
Proof.
  intros Hi. rewrite (nth_indep _ d' (f d)) by now rewrite length_map.
  apply map_nth.
Qed.

Lemma map_nth_seq {A B : Type} (f : A -> B) (l : list A) (d : A) :
  map (fun c => f (nth c l d)) (seq 0 (length l)) = map f l.
Proof.
  induction l as [| a l IH]; [reflexivity |].
  cbn [length seq map nth]. f_equal.
  rewrite <- seq_shift, map_map. exact IH.
Qed.

Lemma in_enumerate {A : Type} (l : list A) (i : Z) (x : A) :
  In (i, x) (enumerate l) <->
  0 <= i < Z.of_nat (length l) /\ nth_error l (Z.to_nat i) = Some x.
Proof.
  unfold enumerate, Np.arange.
  assert (G : forall (s : nat),
             In (i, x) (combine (map Z.of_nat (seq s (length l))) l) <->
             Z.of_nat s <= i < Z.of_nat s + Z.of_nat (length l) /\
             nth_error l (Z.to_nat i - s) = Some x).
  { induction l as [| a l IH]; intros s.
    - cbn. split; [intros [] | intros [H _]; lia].
    - cbn [length seq map combine In]. rewrite IH. split.
      + intros [E | [Hr Hn]].
        * inversion E; subst. split; [lia |].
          replace (Z.to_nat (Z.of_nat s) - s)%nat with 0%nat by lia. reflexivity.
        * split; [lia |].
          replace (Z.to_nat i - s)%nat with (S (Z.to_nat i - S s)) by lia. exact Hn.
      + intros [Hr Hn]. destruct (Z.eq_dec i (Z.of_nat s)) as [-> | Hne].
        * left. replace (Z.to_nat (Z.of_nat s) - s)%nat with 0%nat in Hn by lia.
          cbn in Hn. now inversion Hn.
        * right. split; [lia |].
          replace (Z.to_nat i - s)%nat with (S (Z.to_nat i - S s)) in Hn by lia.
          exact Hn. }
  rewrite (G 0%nat). rewrite Nat.sub_0_r. cbn. tauto.
Qed.

Lemma enumerate_map {A B : Type} (f : A -> B) (l : list A) :
  enumerate (map f l) = map (fun '(i, x) => (i, f x)) (enumerate l).
Proof.
  unfold enumerate. rewrite length_map.
  generalize (Np.arange (length l)) as ks.
  induction l as [| a l IH]; intros [| k ks]; cbn; try reflexivity.
  now rewrite IH.
Qed.

Section Table.

Variable sun_alt : EarthLocation -> Q -> float.
Variable grid : list Q.
Variable locs : list EarthLocation.

Let alt := alt_degree sun_alt grid locs.

Lemma length_alt_degree : length alt = length grid.
Proof. unfold alt, alt_degree. apply length_map. Qed.

Lemma length_column (loc : EarthLocation) : length (column sun_alt grid loc) = length grid.
Proof. apply length_map. Qed.

Lemma transpose_alt_degree :
  Np.transpose (length locs) alt = map (column sun_alt grid) locs.
Proof.
  unfold Np.transpose, alt, alt_degree.
  rewrite <- (map_nth_seq (column sun_alt grid) locs (mk_loc nan nan)).
  apply map_ext_in. intros c Hc. apply in_seq in Hc.
  rewrite map_map. unfold column. apply map_ext. intros t.
  apply (nth_map_in (fun loc => sun_alt loc t)). lia.
Qed.

Lemma min_idx_alt_degree :
  min_idx alt (length locs) =
  map (fun loc => Scipy.argrelmin (map sq (column sun_alt grid loc))) locs.
Proof. unfold min_idx. rewrite transpose_alt_degree, map_map. reflexivity. Qed.

Lemma cell_alt_degree (r c : Z) (loc : EarthLocation) :
  0 <= r < Z.of_nat (length grid) ->
  nth_error locs (Z.to_nat c) = Some loc ->
  cell alt r c = at_ (column sun_alt grid loc) r.
Proof.
  intros Hr Hc. unfold cell, at_, column, alt, alt_degree.
  assert (Hlt : (Z.to_nat c < length locs)%nat)
    by (apply nth_error_Some; now rewrite Hc).
  rewrite (nth_map_in _ grid _ 0%Q) by lia.
  rewrite (nth_map_in _ locs _ loc) by assumption.
  rewrite (nth_map_in _ grid _ 0%Q) by lia.
  now rewrite (nth_error_nth _ _ loc Hc).
Qed.

Lemma getitem2_alt_degree (r c : Z) (loc : EarthLocation) :
  0 <= r < Z.of_nat (length grid) ->
  0 <= c ->
  nth_error locs (Z.to_nat c) = Some loc ->
  Np.getitem2 alt r c = Ok (at_ (column sun_alt grid loc) r).
Proof.
  intros Hr Hc0 Hc. unfold Np.getitem2.
  assert (Hlt : (Z.to_nat c < length locs)%nat)
    by (apply nth_error_Some; now rewrite Hc).
  rewrite (getitem_ok alt r []) by (rewrite length_alt_degree; lia).
  cbn [rbind].
  assert (Hrow : length (nth (Z.to_nat r) alt []) = length locs).
  { unfold alt, alt_degree. rewrite (nth_map_in _ grid _ 0%Q) by lia.
    apply length_map. }
  rewrite (getitem_ok _ c nan) by (rewrite Hrow; lia).
  f_equal. now apply cell_alt_degree.
Qed.

Lemma getitem2_obstime (r c : Z) :
  0 <= r < Z.of_nat (length grid) ->
  0 <= c < Z.of_nat (length locs) ->
  Np.getitem2 (obstime_datetime grid locs) r c = Ok (nth (Z.to_nat r) grid 0%Q).
Proof.
  intros Hr Hc. unfold Np.getitem2, obstime_datetime.
  rewrite (getitem_ok _ r []) by (rewrite length_map; lia).
  cbn [rbind].
  rewrite (nth_map_in _ grid _ 0%Q) by lia.
  rewrite (getitem_ok _ c 0%Q) by (rewrite length_map; lia).
  f_equal.
  now rewrite (nth_map_in _ locs _ (mk_loc nan nan)) by lia.
Qed.

Lemma decreasing_alt_degree (i j : Z) (loc : EarthLocation) :
  0 <= j < Z.of_nat (length grid) ->
  nth_error locs (Z.to_nat i) = Some loc ->
  decreasing alt i j = col_decreasing (column sun_alt grid loc) j.
Proof.
  intros Hj Hi. unfold decreasing, col_decreasing.
  rewrite length_alt_degree, length_column.
  rewrite !(cell_alt_degree _ _ loc) by (assumption || lia).
  reflexivity.
Qed.

End Table.

(** ** The loop of [sunset_time] *)

Lemma rmap_ok {A B : Type} (f : A -> result B) (g : A -> B) (l : list A) :
  (forall a, In a l -> f a = Ok (g a)) -> rmap f l = Ok (map g l).
Proof.
  induction l as [| a l IH]; intros H; [reflexivity |].
  cbn [rmap map]. rewrite (H a (or_introl eq_refl)). cbn [rbind].
  rewrite IH by (intros b Hb; apply H; now right). reflexivity.
Qed.

Lemma flat_map_ext_in' {A B : Type} (f g : A -> list B) (l : list A) :
  (forall a, In a l -> f a = g a) -> flat_map f l = flat_map g l.
Proof.
  induction l as [| a l IH]; intros H; [reflexivity |].
  cbn [flat_map]. rewrite (H a (or_introl eq_refl)).
  rewrite IH by (intros b Hb; apply H; now right). reflexivity.
Qed.

Section Loop.

Variable sun_alt : EarthLocation -> Q -> float.
Variable grid : list Q.
Variable locs : list EarthLocation.

Let alt := alt_degree sun_alt grid locs.

(** The body of the [try] at a position of the table is the sunset index of
    that position's column; [IndexError] stands for its absence. *)
Lemma try_sunset_idx_column (i : Z) (loc : EarthLocation) :
  0 <= i ->
  nth_error locs (Z.to_nat i) = Some loc ->
  try_sunset_idx alt i (Scipy.argrelmin (map sq (column sun_alt grid loc))) =
  match column_sunset (column sun_alt grid loc) with
  | Some j => Ok j
  | None => Raise IndexError
  end.
Proof.
  intros Hi0 Hi. unfold try_sunset_idx, slopes, column_sunset.
  set (col := column sun_alt grid loc).
  set (idx := Scipy.argrelmin (map sq col)).
  assert (Hrange : forall j, In j idx -> 0 <= j < Z.of_nat (length grid)).
  { intros j Hj. apply in_argrelmin in Hj.
    rewrite length_map in Hj. unfold col in Hj. rewrite length_column in Hj. tauto. }
  rewrite (rmap_ok _ (fun j =>
             (at_ col (Z.min (j + 1) (Z.of_nat (length alt) - 1))
              - at_ col (Z.max (j - 1) 0))%float)).
  - cbn [rbind]. rewrite map_map.
    unfold alt at 1. rewrite length_alt_degree, <- (length_column sun_alt grid loc).
    fold col. fold (col_decreasing col).
    rewrite bool_index_map, getitem_first.
    now destruct (filter (col_decreasing col) idx).
  - intros j Hj. specialize (Hrange j Hj).
    unfold alt. rewrite length_alt_degree.
    rewrite !(getitem2_alt_degree sun_alt grid locs _ i loc) by (assumption || lia).
    reflexivity.
Qed.

Lemma fold_loop_body (entries : list (Z * list Z)) (sunset_idx good_i : list Z) :
  fold_left (loop_body alt) entries (sunset_idx, good_i) =
  (sunset_idx ++ map snd (picks alt entries), good_i ++ map fst (picks alt entries)).
Proof.
  revert sunset_idx good_i.
  induction entries as [| [i idx] entries IH]; intros sunset_idx good_i.
  - cbn. now rewrite !app_nil_r.
  - cbn [fold_left picks flat_map loop_body].
    fold (picks alt entries).
    destruct (try_sunset_idx alt i idx) as [j | []].
    + rewrite IH. cbn [app map fst snd]. now rewrite <- !app_assoc.
    + rewrite IH. reflexivity.
Qed.

Lemma picks_winners :
  picks alt (enumerate (min_idx alt (length locs))) = winners sun_alt grid locs.
Proof.
  unfold picks, winners, alt. rewrite min_idx_alt_degree, enumerate_map.
  rewrite flat_map_concat_map, map_map, <- flat_map_concat_map.
  apply flat_map_ext_in'. intros [i loc] Hin.
  apply in_enumerate in Hin. destruct Hin as [Hr Hn].
  fold alt.
  rewrite (try_sunset_idx_column i loc) by (assumption || lia).
  now destruct (column_sunset (column sun_alt grid loc)).
Qed.

End Loop.

(** ** The winners *)

Lemma column_sunset_in (col : list float) (j : Z) :
  column_sunset col = Some j ->
  In j (Scipy.argrelmin (map sq col)) /\ col_decreasing col j = true.
Proof.
  unfold column_sunset. intros H.
  destruct (filter (col_decreasing col) (Scipy.argrelmin (map sq col))) as [| a l] eqn:E;
    [discriminate H |].
  cbn in H. inversion H; subst a.
  apply filter_In. rewrite E. now left.
Qed.

Lemma column_sunset_range (col : list float) (j : Z) :
  column_sunset col = Some j -> 0 <= j < Z.of_nat (length col).
Proof.
  intros H. apply column_sunset_in in H. destruct H as [H _].
  apply in_argrelmin in H. rewrite length_map in H. tauto.
Qed.

Lemma in_winners (sun_alt : EarthLocation -> Q -> float) (grid : list Q)
  (locs : list EarthLocation) (i j : Z) :
  In (i, j) (winners sun_alt grid locs) <->
  exists loc, 0 <= i < Z.of_nat (length locs) /\
              nth_error locs (Z.to_nat i) = Some loc /\
              column_sunset (column sun_alt grid loc) = Some j.
Proof.
  unfold winners. rewrite in_flat_map. split.
  - intros ([i' loc] & Hin & Hw). apply in_enumerate in Hin.
    destruct (column_sunset (column sun_alt grid loc)) as [j' |] eqn:E; [| destruct Hw].
    destruct Hw as [Hw | []]. inversion Hw; subst. exists loc. tauto.
  - intros (loc & Hr & Hn & Hc). exists (i, loc). split.
    + apply in_enumerate. tauto.
    + rewrite Hc. now left.
Qed.

Lemma winners_range (sun_alt : EarthLocation -> Q -> float) (grid : list Q)
  (locs : list EarthLocation) (i j : Z) :
  In (i, j) (winners sun_alt grid locs) ->
  0 <= i < Z.of_nat (length locs) /\ 0 <= j < Z.of_nat (length grid).
Proof.
  intros H. apply in_winners in H. destruct H as (loc & Hr & _ & Hc).
  apply column_sunset_range in Hc. rewrite length_column in Hc. tauto.
Qed.

Lemma winners_sorted_from {A : Type} (f : A -> option Z) (l : list A) (s : nat) :
  let w := flat_map (fun '(i, x) => match f x with
                                    | Some j => [(i, j)]
                                    | None => []
                                    end)
             (combine (map Z.of_nat (seq s (length l))) l) in
  StronglySorted Z.lt (map fst w) /\ Forall (fun i => Z.of_nat s <= i) (map fst w).
Proof.
  revert s. induction l as [| a l IH]; intros s.
  - cbn. split; constructor.
  - cbn [length seq map combine flat_map].
    destruct (IH (S s)) as [Hs Hb].
    assert (Hb' : Forall (fun i => Z.of_nat s < i)
                    (map fst (flat_map (fun '(i, x) => match f x with
                                                       | Some j => [(i, j)]
                                                       | None => []
                                                       end)
                                (combine (map Z.of_nat (seq (S s) (length l))) l)))).
    { eapply Forall_impl; [| exact Hb]. cbn beta. intros i Hi. lia. }
    destruct (f a) as [j |]; cbn [app map fst].
    + split.
      * constructor; assumption.
      * constructor; [lia |]. eapply Forall_impl; [| exact Hb']. cbn beta. intros; lia.
    + split; [assumption |].
      eapply Forall_impl; [| exact Hb']. cbn beta. intros; lia.
Qed.

Lemma winners_sorted (sun_alt : EarthLocation -> Q -> float) (grid : list Q)
  (locs : list EarthLocation) :
  StronglySorted Z.lt (map fst (winners sun_alt grid locs)).
Proof.
  unfold winners, enumerate, Np.arange.
  apply (winners_sorted_from (fun loc => column_sunset (column sun_alt grid loc)) locs 0).
Qed.

Lemma combine_fst_snd {A B : Type} (l : list (A * B)) :
  combine (map fst l) (map snd l) = l.
Proof.
  induction l as [| [a b] l IH]; cbn; [reflexivity |]. now rewrite IH.
Qed.

(** ** The conversion to local time and the whole function *)

Lemma nb_map_local_sunset (grid : list Q) (locs : list EarthLocation) (w : list (Z * Z))
  (nb : Notebook) :
  (forall i j, In (i, j) w ->
     0 <= i < Z.of_nat (length locs) /\ 0 <= j < Z.of_nat (length grid)) ->
  nb_map (local_sunset Pytz.utc (obstime_datetime grid locs)) w nb =
  (nb, if forallb (in_table (tzs nb)) w
       then Ok (map (local_time grid (tzs nb)) w)
       else Raise IndexError).
Proof.
  induction w as [| [i j] w IH]; intros Hw; [reflexivity |].
  destruct (Hw i j (or_introl eq_refl)) as [Hi Hj].
  cbn [nb_map forallb map]. unfold nb_bind at 1.
  unfold local_sunset at 1. unfold nb_bind, nb_lift, nb_global, nb_ret.
  rewrite getitem2_obstime by assumption.
  unfold in_table at 1. cbn [fst].
  destruct (Z.ltb_spec i (Z.of_nat (length (tzs nb)))) as [Hlt | Hge].
  - rewrite (getitem_ok (tzs nb) i Pytz.UTC) by lia.
    rewrite IH by (intros i' j' H'; apply Hw; now right).
    cbn [andb].
    destruct (forallb (in_table (tzs nb)) w); reflexivity.
  - rewrite getitem_beyond by assumption. reflexivity.
Qed.

(** [sunset_time] in closed form: the globals are left as they were, and the
    value is decided by the winners and by the timezone table. *)
Lemma sunset_time_eq (sun_alt : EarthLocation -> Q -> float) (locs : list EarthLocation)
  (time : Q) (n_time : nat) (nb : Notebook) :
  sunset_time sun_alt locs time n_time nb =
  (nb,
   let grid := time_grid time n_time in
   let w := winners sun_alt grid locs in
   if forallb (in_table (tzs nb)) w
   then Ok (map fst w, map (local_time grid (tzs nb)) w)
   else Raise IndexError).
Proof.
  unfold sunset_time.
  rewrite fold_loop_body, picks_winners. cbn [app].
  rewrite combine_fst_snd.
  unfold nb_bind.
  rewrite nb_map_local_sunset by (intros i j H; now apply winners_range in H).
  cbv zeta.
  destruct (forallb (in_table (tzs nb)) (winners sun_alt (time_grid time n_time) locs));
    reflexivity.
Qed.

(** ** The first candidate that passes a test *)

Lemma hd_filter_some (f : Z -> bool) (l : list Z) (j : Z) :
  StronglySorted Z.lt l ->
  hd_error (filter f l) = Some j <->
  In j l /\ f j = true /\ (forall j', In j' l -> f j' = true -> j <= j').
Proof.
  intros Hs. induction Hs as [| a l Hs IH Ha]; cbn [filter].
  - cbn. split; [discriminate | intros [[] _]].
  - rewrite Forall_forall in Ha. destruct (f a) eqn:Fa; cbn [hd_error In].
    + split.
      * intros E. inversion E; subst j. split; [now left |]. split; [exact Fa |].
        intros j' [<- | Hj'] _; [lia |]. specialize (Ha j' Hj'). lia.
      * intros ([<- | Hj] & Fj & Hmin); [reflexivity |].
        specialize (Ha j Hj). specialize (Hmin a (or_introl eq_refl) Fa). lia.
    + rewrite IH. split.
      * intros (Hj & Fj & Hmin). split; [now right |]. split; [exact Fj |].
        intros j' [<- | Hj'] Fj'; [congruence | now apply Hmin].
      * intros ([<- | Hj] & Fj & Hmin); [congruence |].
        split; [exact Hj |]. split; [exact Fj |].
        intros j' Hj' Fj'. apply Hmin; [now right | exact Fj'].
Qed.

Lemma hd_filter_none (f : Z -> bool) (l : list Z) :
  hd_error (filter f l) = None <-> (forall j, In j l -> f j = false).
Proof.
  induction l as [| a l IH]; cbn [filter].
  - cbn. split; [intros _ j [] | reflexivity].
  - destruct (f a) eqn:Fa; cbn [hd_error In].
    + split; [discriminate |]. intros H. specialize (H a (or_introl eq_refl)). congruence.
    + rewrite IH. split.
      * intros H j [<- | Hj]; [exact Fa | now apply H].
      * intros H j Hj. apply H. now right.
Qed.

Lemma column_sunset_some (col : list float) (j : Z) :
  column_sunset col = Some j <->
  In j (Scipy.argrelmin (map sq col)) /\ col_decreasing col j = true /\
  (forall j', In j' (Scipy.argrelmin (map sq col)) -> col_decreasing col j' = true -> j <= j').
Proof. apply hd_filter_some, argrelmin_sorted. Qed.

Lemma column_sunset_none (col : list float) :
  column_sunset col = None <->
  (forall j, In j (Scipy.argrelmin (map sq col)) -> col_decreasing col j = false).
Proof. apply hd_filter_none. Qed.

(** ** The body of the [try] *)

(** At every position [i] of the table, with [idx] the candidates the minima
    search found there, the body of the [try] gives the index [j] exactly
    when [j] is a candidate that passes the slope test and no candidate that
    passes it has a smaller index; it raises [IndexError] exactly when no
    candidate passes the test. *)
Lemma try_sunset_idx_first_decreasing
  (sun_alt : EarthLocation -> Q -> float) (locs : list EarthLocation)
  (time : Q) (n_time : nat) (i : Z) :
  0 <= i < Z.of_nat (length locs) ->
  let alt := alt_degree sun_alt (time_grid time n_time) locs in
  let idx := nth (Z.to_nat i) (min_idx alt (length locs)) [] in
  (forall j,
      try_sunset_idx alt i idx = Ok j <->
      In j idx /\ decreasing alt i j = true /\
      (forall j', In j' idx -> decreasing alt i j' = true -> j <= j'))
  /\ (try_sunset_idx alt i idx = Raise IndexError <->
      (forall j, In j idx -> decreasing alt i j = false)).
Proof.
  intros Hi alt idx.
  destruct (nth_error locs (Z.to_nat i)) as [loc |] eqn:Hloc;
    [| apply nth_error_None in Hloc; lia].
  set (grid := time_grid time n_time) in *.
  set (col := column sun_alt grid loc).
  assert (Hidx : idx = Scipy.argrelmin (map sq col)).
  { unfold idx, alt. rewrite min_idx_alt_degree.
    rewrite (nth_map_in _ locs _ loc) by lia.
    now rewrite (nth_error_nth _ _ loc Hloc). }
  assert (Hdec : forall j, In j idx -> decreasing alt i j = col_decreasing col j).
  { intros j Hj. apply decreasing_alt_degree; [| exact Hloc].
    rewrite Hidx in Hj. apply in_argrelmin in Hj.
    rewrite length_map in Hj. unfold col in Hj. rewrite length_column in Hj. tauto. }
  assert (Htry : try_sunset_idx alt i idx =
                 match column_sunset col with Some j => Ok j | None => Raise IndexError end).
  { rewrite Hidx. apply try_sunset_idx_column; [lia | exact Hloc]. }
  split.
  - intros j. rewrite Htry. split.
    + intros E. destruct (column_sunset col) as [j0 |] eqn:Ec; [| discriminate E].
      inversion E; subst j0. apply column_sunset_some in Ec. rewrite <- Hidx in Ec.
      destruct Ec as (Hin & Hd & Hmin). split; [exact Hin |].
      split; [now rewrite Hdec |].
      intros j' Hj' Hd'. apply Hmin; [exact Hj' | now rewrite <- Hdec].
    + intros (Hin & Hd & Hmin).
      assert (Ec : column_sunset col = Some j).
      { apply column_sunset_some. rewrite <- Hidx. split; [exact Hin |].
        split; [now rewrite <- Hdec |].
        intros j' Hj' Hd'. apply Hmin; [exact Hj' | now rewrite Hdec]. }
      now rewrite Ec.
  - rewrite Htry. split.
    + intros E. destruct (column_sunset col) as [j0 |] eqn:Ec; [discriminate E |].
      intros j Hj. rewrite Hdec by exact Hj.
      rewrite column_sunset_none in Ec. apply Ec. now rewrite <- Hidx.
    + intros H.
      assert (Ec : column_sunset col = None).
      { apply column_sunset_none. intros j Hj. rewrite <- Hidx in Hj.
        rewrite <- Hdec by exact Hj. now apply H. }
      now rewrite Ec.
Qed.

(** ** C2: the candidates of the minima search *)

(** C2, as the code has it.  The minima search runs on each location's column
    of squared altitudes, and the candidates it finds in a column are exactly
    its strict circular minima: index [i] is a candidate if and only if
    [value[i] < value[(i-1+N) mod N]] and [value[i] < value[(i+1) mod N]],
    where [value[i] = A[i]^2]. *)
Theorem candidates_are_strict_circular_minima
  (sun_alt : EarthLocation -> Q -> float) (locs : list EarthLocation)
  (time : Q) (n_time : nat) :
  let grid := time_grid time n_time in
  min_idx (alt_degree sun_alt grid locs) (length locs) =
  map (fun loc => Scipy.argrelmin (map sq (column sun_alt grid loc))) locs
  /\ (forall (a : list float) (i : Z),
        In i (Scipy.argrelmin (map sq a)) <-> strict_circular_minimum (map sq a) i).
Proof.
  intros grid. split; [apply min_idx_alt_degree |].
  intros a i. rewrite in_argrelmin. unfold strict_circular_minimum.
  set (n := Z.of_nat (length (map sq a))).
  assert (Hwrap : n <> 0 -> (i - 1 + n) mod n = (i - 1) mod n).
  { intros Hn. rewrite <- (Z.mod_add (i - 1) 1 n) by exact Hn. f_equal. lia. }
  split.
  - intros (Hr & Hplus & Hminus). rewrite Hwrap by lia. tauto.
  - intros (Hr & Hminus & Hplus). rewrite Hwrap in Hminus by lia. tauto.
Qed.

(** C2, as stated, fails: in the column of altitudes 1, 1, 2 the first sample
    is a circular minimum of the squares in the non-strict sense, and the
    minima search does not report it. *)
Lemma nonstrict_minimum_is_no_candidate :
  nonstrict_circular_minimum (map sq [1; 1; 2]%float) 0
  /\ ~ In 0 (nth 0 (min_idx [[1]; [1]; [2]]%float 1) []).
Proof.
  split.
  - unfold nonstrict_circular_minimum. cbn. split; [lia |]. split; reflexivity.
  - vm_compute. tauto.
Qed.

(** ** C3: the time grid *)

Lemma length_set_last (y : list Q) (v : Q) : length (Np.set_last y v) = length y.
Proof.
  induction y as [| a [| b y] IH]; cbn [Np.set_last length] in *; try reflexivity.
  now rewrite IH.
Qed.

Lemma nth_set_last (y : list Q) (v d : Q) (k : nat) :
  (k < length y)%nat ->
  nth k (Np.set_last y v) d = if (S k =? length y)%nat then v else nth k y d.
Proof.
  revert k. induction y as [| a [| b y] IH]; intros k Hk.
  - cbn in Hk. lia.
  - cbn in Hk. assert (k = 0%nat) by lia. subst k. reflexivity.
  - destruct k as [| k].
    + reflexivity.
    + change (Np.set_last (a :: b :: y) v) with (a :: Np.set_last (b :: y) v).
      cbn [nth]. rewrite IH by (cbn [length] in *; lia).
      cbn [length]. reflexivity.
Qed.

Lemma length_linspace (start stop : Q) (num : nat) :
  length (Np.linspace start stop num) = num.
Proof.
  unfold Np.linspace.
  destruct (1 <? num)%nat, (0 <? Z.of_nat num - 1);
    rewrite ?length_set_last, !length_map, length_arange; reflexivity.
Qed.

Lemma nth_linspace (start stop : Q) (num k : nat) :
  (2 <= num)%nat -> (k < num)%nat ->
  nth k (Np.linspace start stop num) 0%Q =
  if (S k =? num)%nat then stop
  else (inject_Z (Z.of_nat k) * ((stop - start) / inject_Z (Z.of_nat num - 1)) + start)%Q.
Proof.
  intros Hnum Hk. unfold Np.linspace.
  destruct (Nat.ltb_spec 1 num) as [_ | Hbad]; [| lia].
  destruct (Z.ltb_spec 0 (Z.of_nat num - 1)) as [_ | Hbad]; [| lia].
  rewrite nth_set_last by (rewrite !length_map, length_arange; lia).
  rewrite !length_map, length_arange.
  destruct (S k =? num)%nat; [reflexivity |].
  rewrite !map_map.
  rewrite (nth_map_in _ (Np.arange num) k 0) by (rewrite length_arange; lia).
  now rewrite nth_arange.
Qed.

Lemma nth_time_grid (time : Q) (n_time k : nat) :
  (2 <= n_time)%nat -> (k < n_time)%nat ->
  (nth k (time_grid time n_time) 0 ==
   time + inject_Z (Z.of_nat k) * (24 / inject_Z (Z.of_nat n_time - 1)))%Q.
Proof.
  intros Hn Hk. unfold time_grid.
  rewrite (nth_map_in _ _ k 0%Q) by (rewrite length_linspace; lia).
  rewrite nth_linspace by assumption.
  assert (Hne : ~ (inject_Z (Z.of_nat n_time - 1) == 0)%Q).
  { change 0%Q with (inject_Z 0). rewrite inject_Z_injective. lia. }
  destruct (Nat.eqb_spec (S k) n_time) as [E | _].
  - replace (Z.of_nat k) with (Z.of_nat n_time - 1) by lia. field. exact Hne.
  - field. exact Hne.
Qed.

Lemma time_of_day_midnight (t : Q) (d : Z) :
  (t == midnight d)%Q -> (time_of_day t == 0)%Q.
Proof.
  intros E. unfold time_of_day.
  assert (Hf : Qfloor (t / 24) = d).
  { rewrite <- (Qfloor_Z d). apply Qfloor_comp. rewrite E. unfold midnight. field. }
  rewrite Hf, E. unfold midnight. ring.
Qed.




(** ** C4: the conversion to local time *)

Lemma transition_info_in_force (trans : list (Q * Pytz.tzoffset)) (cur : Pytz.tzoffset)
  (t u : Q) :
  StronglySorted (fun a b => (fst a <= fst b)%Q) trans ->
  (u == t)%Q ->
  entry_in_force cur trans t (Pytz.transition_info_at cur trans u).
Proof.
  intros Hs Hu. revert cur.
  induction Hs as [| [t1 inf1] rest Hs IH Hall]; intros cur.
  - cbn. apply force_before. intros t' inf' [].
  - cbn [Pytz.transition_info_at].
    rewrite Forall_forall in Hall.
    destruct (Qle_bool t1 u) eqn:E.
    + apply Qle_bool_iff in E. rewrite Hu in E.
      destruct (IH inf1) as [Hlater | earlier later t0 inf Hsplit Hearlier Ht0 Hlater].
      * apply (force_since _ _ _ [] rest t1); [reflexivity | intros ? ? [] | exact E | exact Hlater].
      * apply (force_since _ _ _ ((t1, inf1) :: earlier) later t0);
          [now rewrite Hsplit | | exact Ht0 | exact Hlater].
        intros t' inf' [H | H]; [inversion H; subst; exact E | now apply (Hearlier t' inf')].
    + apply force_before. intros t' inf' Hin.
      assert (Hlt : (t < t1)%Q).
      { apply Qnot_le_lt. intros Hle. rewrite <- Hu in Hle.
        apply Qle_bool_iff in Hle. congruence. }
      destruct Hin as [H | H].
      * inversion H; subst. exact Hlt.
      * specialize (Hall (t', inf') H). cbn [fst] in Hall.
        eapply Qlt_le_trans; eassumption.
Qed.

Lemma astimezone_in_force (z : Pytz.tzinfo) (t : Q) :
  sorted_zone z ->
  let s := Pytz.astimezone (Pytz.localize_utc t) z in
  Pytz.tz s = z
  /\ in_force z t (Pytz.info s)
  /\ (Pytz.wall s == t + Pytz.utcoffset (Pytz.info s))%Q.
Proof.
  intros Hz. destruct z as [| zone offset | zone before trans]; cbn.
  - split; [reflexivity |]. split; [reflexivity |]. unfold Pytz.ZERO. ring.
  - split; [reflexivity |]. split; [reflexivity |]. unfold Pytz.ZERO. ring.
  - split; [reflexivity |]. split.
    + apply transition_info_in_force; [exact Hz |]. unfold Pytz.ZERO. ring.
    + unfold Pytz.ZERO. ring.
Qed.

Lemma nth_error_winners (sun_alt : EarthLocation -> Q -> float) (grid : list Q)
  (locs : list EarthLocation) (k : nat) (i : Z) :
  nth_error (map fst (winners sun_alt grid locs)) k = Some i ->
  exists j, nth_error (winners sun_alt grid locs) k = Some (i, j).
Proof.
  rewrite nth_error_map.
  destruct (nth_error (winners sun_alt grid locs) k) as [[i' j] |]; [| discriminate].
  cbn. intros E. inversion E; subst. now exists j.
Qed.

Lemma forallb_in_table (table : list Pytz.tzinfo) (w : list (Z * Z)) (i j : Z) :
  forallb (in_table table) w = true -> In (i, j) w -> 0 <= i ->
  nth_error table (Z.to_nat i) = Some (nth (Z.to_nat i) table Pytz.UTC).
Proof.
  intros Hall Hin Hi. rewrite forallb_forall in Hall.
  specialize (Hall _ Hin). unfold in_table in Hall. cbn [fst] in Hall.
  apply Z.ltb_lt in Hall. apply nth_error_nth'. lia.
Qed.

(** C4.  When [sunset_time] returns, the timestamp it returns for a position
    [i] is the UTC instant of the grid at the position's sunset index [j], read
    on the wall clock of the timezone [tzs[i]]: its timezone is [tzs[i]], it
    carries the offset, daylight-saving adjustment and name that timezone
    prescribes at that instant (those of the latest transition not after it),
    and its wall-clock reading is the UTC instant plus that offset. *)
Theorem sunset_is_local_civil_time
  (sun_alt : EarthLocation -> Q -> float) (locs : list EarthLocation)
  (time : Q) (n_time : nat) (nb : Notebook)
  (good_i : list Z) (sunsets : list Pytz.datetime) :
  Forall sorted_zone (tzs nb) ->
  snd (sunset_time sun_alt locs time n_time nb) = Ok (good_i, sunsets) ->
  forall (k : nat) (i : Z),
    nth_error good_i k = Some i ->
    exists (loc : EarthLocation) (j : Z) (z : Pytz.tzinfo) (s : Pytz.datetime),
      nth_error locs (Z.to_nat i) = Some loc
      /\ column_sunset (column sun_alt (time_grid time n_time) loc) = Some j
      /\ nth_error (tzs nb) (Z.to_nat i) = Some z
      /\ nth_error sunsets k = Some s
      /\ Pytz.tz s = z
      /\ in_force z (nth (Z.to_nat j) (time_grid time n_time) 0%Q) (Pytz.info s)
      /\ (Pytz.wall s ==
          nth (Z.to_nat j) (time_grid time n_time) 0 + Pytz.utcoffset (Pytz.info s))%Q.
Proof.
  intros Hsorted Hret k i Hk.
  rewrite sunset_time_eq in Hret. cbn [snd] in Hret. cbv zeta in Hret.
  set (grid := time_grid time n_time) in *.
  set (w := winners sun_alt grid locs) in *.
  destruct (forallb (in_table (tzs nb)) w) eqn:Hall; [| discriminate Hret].
  inversion Hret; subst good_i sunsets. clear Hret.
  destruct (nth_error_winners _ _ _ _ _ Hk) as [j Hkw].
  change (nth_error w k = Some (i, j)) in Hkw.
  assert (Hin : In (i, j) w) by (eapply nth_error_In; exact Hkw).
  destruct (proj1 (in_winners _ _ _ _ _) Hin) as (loc & Hr & Hloc & Hcol).
  pose proof (forallb_in_table _ _ _ _ Hall Hin (proj1 Hr)) as Hz.
  set (z := nth (Z.to_nat i) (tzs nb) Pytz.UTC) in *.
  assert (Hzs : sorted_zone z).
  { rewrite Forall_forall in Hsorted. apply Hsorted. eapply nth_error_In. exact Hz. }
  exists loc, j, z, (local_time grid (tzs nb) (i, j)).
  split; [exact Hloc |]. split; [exact Hcol |]. split; [exact Hz |].
  split; [rewrite nth_error_map, Hkw; reflexivity |].
  unfold local_time. cbn [fst snd]. fold z.
  apply (astimezone_in_force z _ Hzs).
Qed.

Lemma demo_zones_sorted : Forall sorted_zone (tzs Demo.nb).
Proof.
  repeat constructor; cbn; discriminate.
Qed.

Lemma demo_run :
  sunset_time Demo.sun_alt Demo.locs (midnight 10) 9 Demo.nb
  = (Demo.nb, Ok (Demo.good_i, Demo.sunsets)).
Proof. vm_compute. reflexivity. Qed.

Lemma sunset_is_local_civil_time_witness :
  snd (sunset_time Demo.sun_alt Demo.locs (midnight 10) 9 Demo.nb)
  = Ok (Demo.good_i, Demo.sunsets)
  /\ exists (loc : EarthLocation) (j : Z) (z : Pytz.tzinfo) (s : Pytz.datetime),
      nth_error Demo.locs (Z.to_nat 0) = Some loc
      /\ column_sunset (column Demo.sun_alt (time_grid (midnight 10) 9) loc) = Some j
      /\ nth_error (tzs Demo.nb) (Z.to_nat 0) = Some z
      /\ nth_error Demo.sunsets 0 = Some s
      /\ Pytz.tz s = z
      /\ in_force z (nth (Z.to_nat j) (time_grid (midnight 10) 9) 0%Q) (Pytz.info s)
      /\ (Pytz.wall s ==
          nth (Z.to_nat j) (time_grid (midnight 10) 9) 0 + Pytz.utcoffset (Pytz.info s))%Q.
Proof.
  assert (Hrun : snd (sunset_time Demo.sun_alt Demo.locs (midnight 10) 9 Demo.nb)
                 = Ok (Demo.good_i, Demo.sunsets)) by (rewrite demo_run; reflexivity).
  split; [exact Hrun |].
  exact (sunset_is_local_civil_time Demo.sun_alt Demo.locs (midnight 10) 9 Demo.nb
           Demo.good_i Demo.sunsets demo_zones_sorted Hrun 0%nat 0 eq_refl).
Defined.

(** ** C6: one pair per position with a sunset, in the order of the positions *)

Lemma in_good_i (sun_alt : EarthLocation -> Q -> float) (grid : list Q)
  (locs : list EarthLocation) (i : Z) :
  In i (map fst (winners sun_alt grid locs)) <->
  0 <= i /\ exists loc, nth_error locs (Z.to_nat i) = Some loc
                        /\ column_sunset (column sun_alt grid loc) <> None.
Proof.
  rewrite in_map_iff. split.
  - intros ([i' j] & E & Hin). cbn in E. subst i'.
    apply in_winners in Hin. destruct Hin as (loc & Hr & Hloc & Hcol).
    split; [lia |]. exists loc. split; [exact Hloc | congruence].
  - intros (Hi & loc & Hloc & Hcol).
    destruct (column_sunset (column sun_alt grid loc)) as [j |] eqn:E; [| congruence].
    exists (i, j). split; [reflexivity |]. apply in_winners. exists loc.
    split; [| tauto].
    assert (Z.to_nat i < length locs)%nat by (apply nth_error_Some; congruence). lia.
Qed.

(** C6.  When [sunset_time] returns, it returns as many timestamps as
    indices; the indices are strictly increasing and are exactly the positions
    whose column has a sunset index; and the timestamp at each place of the
    output is the local time of the position whose index is at that place. *)
Theorem results_are_aligned_and_ordered
  (sun_alt : EarthLocation -> Q -> float) (locs : list EarthLocation)
  (time : Q) (n_time : nat) (nb : Notebook)
  (good_i : list Z) (sunsets : list Pytz.datetime) :
  snd (sunset_time sun_alt locs time n_time nb) = Ok (good_i, sunsets) ->
  let grid := time_grid time n_time in
  length good_i = length sunsets
  /\ StronglySorted Z.lt good_i
  /\ (forall i, In i good_i <->
                0 <= i /\ exists loc, nth_error locs (Z.to_nat i) = Some loc
                                      /\ column_sunset (column sun_alt grid loc) <> None)
  /\ (forall (k : nat) (i : Z),
        nth_error good_i k = Some i ->
        exists (loc : EarthLocation) (j : Z),
          nth_error locs (Z.to_nat i) = Some loc
          /\ column_sunset (column sun_alt grid loc) = Some j
          /\ nth_error sunsets k = Some (local_time grid (tzs nb) (i, j))).
Proof.
  intros Hret grid.
  rewrite sunset_time_eq in Hret. cbn [snd] in Hret. cbv zeta in Hret.
  fold grid in Hret. set (w := winners sun_alt grid locs) in *.
  destruct (forallb (in_table (tzs nb)) w); [| discriminate Hret].
  inversion Hret; subst good_i sunsets. clear Hret.
  split; [now rewrite !length_map |].
  split; [apply winners_sorted |].
  split; [intros i; apply in_good_i |].
  intros k i Hk.
  destruct (nth_error_winners _ _ _ _ _ Hk) as [j Hkw].
  change (nth_error w k = Some (i, j)) in Hkw.
  assert (Hin : In (i, j) w) by (eapply nth_error_In; exact Hkw).
  destruct (proj1 (in_winners _ _ _ _ _) Hin) as (loc & Hr & Hloc & Hcol).
  exists loc, j. split; [exact Hloc |]. split; [exact Hcol |].
  rewrite nth_error_map, Hkw. reflexivity.
Qed.

Lemma results_are_aligned_and_ordered_witness :
  length Demo.good_i = length Demo.sunsets
  /\ StronglySorted Z.lt Demo.good_i
  /\ In 3 Demo.good_i
  /\ ~ In 1 Demo.good_i.
Proof.
  assert (Hrun : snd (sunset_time Demo.sun_alt Demo.locs (midnight 10) 9 Demo.nb)
                 = Ok (Demo.good_i, Demo.sunsets)) by (rewrite demo_run; reflexivity).
  pose proof (results_are_aligned_and_ordered Demo.sun_alt Demo.locs (midnight 10) 9 Demo.nb
                Demo.good_i Demo.sunsets Hrun) as (Hlen & Hsorted & Hin & _).
  split; [exact Hlen |]. split; [exact Hsorted |]. split.
  - apply Hin. split; [lia |]. exists Demo.here. split; [reflexivity |].
    vm_compute. discriminate.
  - intros H. apply Hin in H. destruct H as (_ & loc & Hloc & Hcol).
    cbn in Hloc. inversion Hloc; subst loc. apply Hcol. vm_compute. reflexivity.
Defined.

(** ** C1: the slope test and the choice among the candidates *)

Lemma nth_min_idx (sun_alt : EarthLocation -> Q -> float) (grid : list Q)
  (locs : list EarthLocation) (i : Z) (loc : EarthLocation) :
  0 <= i ->
  nth_error locs (Z.to_nat i) = Some loc ->
  nth (Z.to_nat i) (min_idx (alt_degree sun_alt grid locs) (length locs)) []
  = Scipy.argrelmin (map sq (column sun_alt grid loc)).
Proof.
  intros Hi Hloc. rewrite min_idx_alt_degree.
  assert (Hlt : (Z.to_nat i < length locs)%nat) by (apply nth_error_Some; congruence).
  rewrite (nth_map_in _ locs _ loc) by exact Hlt.
  now rewrite (nth_error_nth _ _ loc Hloc).
Qed.

Lemma winner_first_decreasing (sun_alt : EarthLocation -> Q -> float)
  (locs : list EarthLocation) (time : Q) (n_time : nat) (i : Z) :
  0 <= i < Z.of_nat (length locs) ->
  let grid := time_grid time n_time in
  let alt := alt_degree sun_alt grid locs in
  let idx := nth (Z.to_nat i) (min_idx alt (length locs)) [] in
  (forall j, In (i, j) (winners sun_alt grid locs) <-> first_decreasing alt i idx j)
  /\ ((forall j, ~ In (i, j) (winners sun_alt grid locs)) <->
      (forall j, In j idx -> decreasing alt i j = false)).
Proof.
  intros Hi grid alt idx.
  destruct (try_sunset_idx_first_decreasing sun_alt locs time n_time i Hi) as [Hsome Hnone].
  fold grid alt idx in Hsome, Hnone.
  destruct (nth_error locs (Z.to_nat i)) as [loc |] eqn:Hloc;
    [| apply nth_error_None in Hloc; lia].
  assert (Hidx : idx = Scipy.argrelmin (map sq (column sun_alt grid loc))).
  { unfold idx, alt. apply nth_min_idx; [lia | exact Hloc]. }
  assert (Htry : try_sunset_idx alt i idx =
                 match column_sunset (column sun_alt grid loc) with
                 | Some j => Ok j
                 | None => Raise IndexError
                 end).
  { rewrite Hidx. apply try_sunset_idx_column; [lia | exact Hloc]. }
  assert (Hw : forall j, In (i, j) (winners sun_alt grid locs) <->
                         column_sunset (column sun_alt grid loc) = Some j).
  { intros j. rewrite in_winners. split.
    - intros (loc' & _ & Hloc' & Hc). congruence.
    - intros Hc. exists loc. tauto. }
  split.
  - intros j. rewrite Hw. unfold first_decreasing. rewrite <- Hsome, Htry.
    destruct (column_sunset (column sun_alt grid loc)); split; congruence.
  - rewrite <- Hnone, Htry. split.
    + intros H. destruct (column_sunset (column sun_alt grid loc)) as [j |] eqn:E;
        [| reflexivity].
      exfalso. apply (H j). now apply Hw.
    + intros H j Hin. apply Hw in Hin. rewrite Hin in H. discriminate H.
Qed.

(** C1.  Whenever [sunset_time] returns, at every position [i] and with [idx]
    the candidates the minima search found there: the candidate [j] for which
    [alt[min(j+1, N-1), i] - alt[max(j-1, 0), i]] (indices clamped at the two
    ends of the grid) is below zero, and which is the smallest candidate for
    which it is, is the one [sunset_time] returns the position with, its
    timestamp being the local time of the grid instant [j]; the timestamp
    returned with a position is always that of this candidate; and the
    position is left out exactly when no candidate passes the test. *)
Theorem sunset_is_first_decreasing_candidate
  (sun_alt : EarthLocation -> Q -> float) (locs : list EarthLocation)
  (time : Q) (n_time : nat) (nb : Notebook)
  (good_i : list Z) (sunsets : list Pytz.datetime) (i : Z) :
  snd (sunset_time sun_alt locs time n_time nb) = Ok (good_i, sunsets) ->
  0 <= i < Z.of_nat (length locs) ->
  let grid := time_grid time n_time in
  let alt := alt_degree sun_alt grid locs in
  let idx := nth (Z.to_nat i) (min_idx alt (length locs)) [] in
  (forall j,
      first_decreasing alt i idx j ->
      exists k, nth_error good_i k = Some i
                /\ nth_error sunsets k = Some (local_time grid (tzs nb) (i, j)))
  /\ (forall k,
         nth_error good_i k = Some i ->
         exists j, first_decreasing alt i idx j
                   /\ nth_error sunsets k = Some (local_time grid (tzs nb) (i, j)))
  /\ ((forall j, In j idx -> decreasing alt i j = false) <-> ~ In i good_i).
Proof.
  intros Hret Hi grid alt idx.
  destruct (winner_first_decreasing sun_alt locs time n_time i Hi) as [Hsome Hnone].
  fold grid alt idx in Hsome, Hnone.
  rewrite sunset_time_eq in Hret. cbn [snd] in Hret. cbv zeta in Hret.
  fold grid in Hret. set (w := winners sun_alt grid locs) in *.
  destruct (forallb (in_table (tzs nb)) w); [| discriminate Hret].
  inversion Hret; subst good_i sunsets. clear Hret.
  split; [| split].
  - intros j Hj. apply Hsome in Hj.
    destruct (In_nth_error _ _ Hj) as [k Hk]. exists k.
    rewrite !nth_error_map, Hk. split; reflexivity.
  - intros k Hk. destruct (nth_error_winners _ _ _ _ _ Hk) as [j Hkw].
    change (nth_error w k = Some (i, j)) in Hkw.
    exists j. split.
    + apply Hsome. eapply nth_error_In. exact Hkw.
    + rewrite nth_error_map, Hkw. reflexivity.
  - rewrite <- Hnone. split.
    + intros H Hin. apply in_map_iff in Hin. destruct Hin as ([i' j] & E & Hin).
      cbn in E. subst i'. now apply (H j).
    + intros H j Hin. apply H. apply in_map_iff. now exists (i, j).
Qed.

Lemma sunset_is_first_decreasing_candidate_witness :
  exists j,
    first_decreasing (alt_degree Demo.sun_alt (time_grid (midnight 10) 9) Demo.locs) 0
      (nth (Z.to_nat 0)
         (min_idx (alt_degree Demo.sun_alt (time_grid (midnight 10) 9) Demo.locs)
            (length Demo.locs)) []) j
    /\ nth_error Demo.sunsets 0
       = Some (local_time (time_grid (midnight 10) 9) (tzs Demo.nb) (0, j)).
Proof.
  assert (Hrun : snd (sunset_time Demo.sun_alt Demo.locs (midnight 10) 9 Demo.nb)
                 = Ok (Demo.good_i, Demo.sunsets)) by (rewrite demo_run; reflexivity).
  assert (Hi : 0 <= 0 < Z.of_nat (length Demo.locs)) by (cbn; lia).
  exact (proj1 (proj2 (sunset_is_first_decreasing_candidate Demo.sun_alt Demo.locs
                         (midnight 10) 9 Demo.nb Demo.good_i Demo.sunsets 0 Hrun Hi))
           0%nat eq_refl).
Defined.

(** ** C5: positions without a sunset *)

(** C5, as the code has it.  Whenever [sunset_time] returns, it returns as
    many timestamps as indices, and at every position: if no candidate of
    the position passes the slope test (in particular if it has no candidate
    at all), the position is absent from the returned indices, and its turn
    of the loop leaves the two lists as they were, whatever they hold, so
    that the positions around it are not affected; if the position has a
    sunset index, it is present.  What is returned is the indices of the
    positions with a result and their timestamps, and nothing else. *)
Theorem no_candidate_is_skipped
  (sun_alt : EarthLocation -> Q -> float) (locs : list EarthLocation)
  (time : Q) (n_time : nat) (nb : Notebook)
  (good_i : list Z) (sunsets : list Pytz.datetime) :
  snd (sunset_time sun_alt locs time n_time nb) = Ok (good_i, sunsets) ->
  let grid := time_grid time n_time in
  let alt := alt_degree sun_alt grid locs in
  length sunsets = length good_i
  /\ (forall (i : Z) (loc : EarthLocation),
        0 <= i ->
        nth_error locs (Z.to_nat i) = Some loc ->
        let col := column sun_alt grid loc in
        let idx := Scipy.argrelmin (map sq col) in
        ((forall j, In j idx -> col_decreasing col j = false) ->
         ~ In i good_i
         /\ (forall acc : list Z * list Z, loop_body alt acc (i, idx) = acc))
        /\ (forall j, column_sunset col = Some j -> In i good_i)).
Proof.
  intros Hret grid alt.
  rewrite sunset_time_eq in Hret. cbn [snd] in Hret. cbv zeta in Hret.
  fold grid in Hret. set (w := winners sun_alt grid locs) in *.
  destruct (forallb (in_table (tzs nb)) w); [| discriminate Hret].
  inversion Hret; subst good_i sunsets. clear Hret.
  split; [now rewrite !length_map |].
  intros i loc Hi Hloc col idx. split.
  - intros Hnone. apply column_sunset_none in Hnone. fold col in Hnone. split.
    + intros Hin. apply in_good_i in Hin.
      destruct Hin as (_ & loc' & Hloc' & Hcol).
      assert (loc' = loc) by congruence. subst loc'.
      apply Hcol. exact Hnone.
    + intros [sunset_idx good_i]. unfold loop_body, idx, col, alt.
      rewrite (try_sunset_idx_column sun_alt grid locs i loc Hi Hloc).
      fold col. rewrite Hnone. reflexivity.
  - intros j Hj. apply in_good_i. split; [exact Hi |].
    exists loc. split; [exact Hloc |]. fold col. congruence.
Qed.

Lemma no_candidate_is_skipped_witness :
  ~ In 1 Demo.good_i /\ In 0 Demo.good_i.
Proof.
  assert (Hrun : snd (sunset_time Demo.sun_alt Demo.locs (midnight 10) 9 Demo.nb)
                 = Ok (Demo.good_i, Demo.sunsets)) by (rewrite demo_run; reflexivity).
  destruct (no_candidate_is_skipped Demo.sun_alt Demo.locs (midnight 10) 9 Demo.nb
              Demo.good_i Demo.sunsets Hrun) as [_ Hpos].
  split.
  - assert (H1 : 0 <= 1) by lia.
    destruct (Hpos 1 Demo.pole H1 eq_refl) as [Hskip _].
    apply Hskip. intros j Hj. vm_compute in Hj.
    destruct Hj as [<- | []]. vm_compute. reflexivity.
  - assert (H0 : 0 <= 0) by lia.
    destruct (Hpos 0 Demo.here H0 eq_refl) as [_ Hkeep].
    apply (Hkeep 6). vm_compute. reflexivity.
Defined.

(** C5, as stated, fails: the index of a skipped position is recorded
    nowhere.  A call on the single position [Demo.pole], which has no sunset,
    ends exactly as a call on no position at all: same globals, same (empty)
    indices and timestamps. *)
Lemma skipped_index_is_not_recorded :
  column_sunset (column Demo.sun_alt (time_grid (midnight 10) 9) Demo.pole) = None
  /\ sunset_time Demo.sun_alt [Demo.pole] (midnight 10) 9 Demo.nb = (Demo.nb, Ok ([], []))
  /\ sunset_time Demo.sun_alt [] (midnight 10) 9 Demo.nb = (Demo.nb, Ok ([], [])).
Proof.
  split; [vm_compute; reflexivity |].
  split; vm_compute; reflexivity.
Qed.

(** ** C7: positions with NaN coordinates *)

Lemma is_nan_eq (x : float) : PrimFloat.is_nan x = true -> x = nan.
Proof.
  intros H. rewrite <- (SF2Prim_Prim2SF x).
  unfold PrimFloat.is_nan in H. rewrite FloatAxioms.eqb_spec in H.
  destruct (Prim2SF x) as [sg | sg | | sg m e] eqn:E; cbn in H.
  - destruct sg; discriminate H.
  - destruct sg; discriminate H.
  - reflexivity.
  - unfold SFeqb, SFcompare in H. destruct sg.
    + rewrite Z.compare_refl, Pos.compare_cont_refl in H. discriminate H.
    + rewrite Z.compare_refl, Pos.compare_cont_refl in H. discriminate H.
Qed.

Lemma nan_column_has_no_candidate (col : list float) :
  (forall k, (k < length col)%nat -> nth k col nan = nan) ->
  Scipy.argrelmin (map sq col) = [].
Proof.
  intros Hnan.
  destruct (Scipy.argrelmin (map sq col)) as [| j l] eqn:E; [reflexivity |].
  exfalso.
  assert (Hj : In j (Scipy.argrelmin (map sq col))) by (rewrite E; now left).
  apply in_argrelmin in Hj. rewrite length_map in Hj.
  destruct Hj as (Hr & Hplus & _).
  assert (Hat : forall k, 0 <= k < Z.of_nat (length col) -> at_ (map sq col) k = sq nan).
  { intros k Hk. unfold at_.
    rewrite (nth_map_in sq col _ nan) by lia. now rewrite Hnan by lia. }
  rewrite (Hat j Hr) in Hplus.
  rewrite (Hat ((j + 1) mod Z.of_nat (length col))) in Hplus
    by (apply Z.mod_pos_bound; lia).
  vm_compute in Hplus. discriminate Hplus.
Qed.

Lemma nan_column_has_no_sunset (col : list float) :
  (forall k, (k < length col)%nat -> nth k col nan = nan) ->
  column_sunset col = None.
Proof.
  intros Hnan. unfold column_sunset.
  now rewrite (nan_column_has_no_candidate col Hnan).
Qed.

(** C7, as the code has it.  [sunset_time] never looks at the coordinates:
    what excludes a position is its column of altitudes.  Whenever a call
    returns, a position [p] whose altitude is NaN at every instant of the
    grid is absent from the returned indices, and every other position is
    present exactly when its own column has a sunset index. *)
Theorem nan_altitudes_are_skipped_alone
  (sun_alt : EarthLocation -> Q -> float) (locs : list EarthLocation)
  (time : Q) (n_time : nat) (nb : Notebook)
  (good_i : list Z) (sunsets : list Pytz.datetime) (p : Z) (bad : EarthLocation) :
  snd (sunset_time sun_alt locs time n_time nb) = Ok (good_i, sunsets) ->
  0 <= p ->
  nth_error locs (Z.to_nat p) = Some bad ->
  (forall t, In t (time_grid time n_time) -> PrimFloat.is_nan (sun_alt bad t) = true) ->
  ~ In p good_i
  /\ (forall (i : Z) (loc : EarthLocation),
        0 <= i -> i <> p ->
        nth_error locs (Z.to_nat i) = Some loc ->
        (In i good_i <->
         column_sunset (column sun_alt (time_grid time n_time) loc) <> None)).
Proof.
  intros Hret Hp Hbad Hnan.
  rewrite sunset_time_eq in Hret. cbn [snd] in Hret. cbv zeta in Hret.
  set (grid := time_grid time n_time) in *.
  set (w := winners sun_alt grid locs) in *.
  destruct (forallb (in_table (tzs nb)) w); [| discriminate Hret].
  inversion Hret; subst good_i sunsets. clear Hret.
  split.
  - intros Hin. apply in_good_i in Hin.
    destruct Hin as (_ & loc & Hloc & Hcol).
    assert (loc = bad) by congruence. subst loc.
    apply Hcol. apply nan_column_has_no_sunset.
    intros k Hk. unfold column in *. rewrite length_map in Hk.
    rewrite (nth_map_in _ grid _ 0%Q) by exact Hk.
    apply is_nan_eq. apply Hnan. now apply nth_In.
  - intros i loc Hi _ Hloc. unfold w. rewrite in_good_i. split.
    + intros (_ & loc' & Hloc' & Hcol). congruence.
    + intros Hcol. split; [exact Hi |]. now exists loc.
Qed.

Lemma nan_altitudes_are_skipped_alone_witness :
  ~ In 2 Demo.good_i /\ In 3 Demo.good_i.
Proof.
  assert (Hrun : snd (sunset_time Demo.sun_alt Demo.locs (midnight 10) 9 Demo.nb)
                 = Ok (Demo.good_i, Demo.sunsets)) by (rewrite demo_run; reflexivity).
  assert (Hp : 0 <= 2) by lia.
  assert (Hbad : nth_error Demo.locs (Z.to_nat 2) = Some Demo.nowhere) by reflexivity.
  assert (Hnan : forall t, In t (time_grid (midnight 10) 9) ->
                           PrimFloat.is_nan (Demo.sun_alt Demo.nowhere t) = true)
    by (intros t _; reflexivity).
  destruct (nan_altitudes_are_skipped_alone Demo.sun_alt Demo.locs (midnight 10) 9 Demo.nb
              Demo.good_i Demo.sunsets 2 Demo.nowhere Hrun Hp Hbad Hnan)
    as [Hout Hothers].
  split; [exact Hout |].
  apply (Hothers 3 Demo.here); [lia | lia | reflexivity |].
  vm_compute. discriminate.
Defined.

(** C7, as stated, fails: a NaN coordinate does not by itself exclude a
    position.  With an ephemeris that does not read the longitude, the
    location [DemoNaN.lost], whose longitude is NaN, has a column of finite
    altitudes with a sunset at sample 6; the call returns it, at index 1,
    next to the location before it. *)
Lemma nan_longitude_is_not_skipped :
  PrimFloat.is_nan (lon DemoNaN.lost) = true
  /\ column_sunset (column DemoNaN.sun_alt (time_grid (midnight 10) 9) DemoNaN.lost) = Some 6
  /\ snd (sunset_time DemoNaN.sun_alt [Demo.here; DemoNaN.lost] (midnight 10) 9 Demo.nb)
     = Ok ([0; 1],
           [local_time (time_grid (midnight 10) 9) (tzs Demo.nb) (0, 6);
            local_time (time_grid (midnight 10) 9) (tzs Demo.nb) (1, 6)]).
Proof.
  split; [reflexivity |]. split; vm_compute; reflexivity.
Qed.

(** ** C8: two calls in a row *)

Lemma update_app (a : nat) (f : list Z -> list Z) (l r : list (list Z)) :
  Mutable.update (length l + a) f (l ++ r) = l ++ Mutable.update a f r.
Proof.
  induction l as [| x l IH]; [reflexivity |].
  cbn [length Nat.add app Mutable.update]. now rewrite IH.
Qed.

Lemma update_first (f : list Z -> list Z) (l : list (list Z)) (x : list Z)
  (r : list (list Z)) :
  Mutable.update (length l) f (l ++ x :: r) = l ++ f x :: r.
Proof.
  rewrite <- (Nat.add_0_r (length l)) at 1. now rewrite update_app.
Qed.

Lemma update_second (f : list Z -> list Z) (l : list (list Z)) (x y : list Z)
  (r : list (list Z)) :
  Mutable.update (S (length l)) f (l ++ x :: y :: r) = l ++ x :: f y :: r.
Proof.
  rewrite <- (Nat.add_1_r (length l)). now rewrite update_app.
Qed.

Lemma nth_first (l : list (list Z)) (x : list Z) (r : list (list Z)) :
  nth (length l) (l ++ x :: r) [] = x.
Proof. rewrite app_nth2 by lia. now rewrite Nat.sub_diag. Qed.

Lemma nth_second (l : list (list Z)) (x y : list Z) (r : list (list Z)) :
  nth (S (length l)) (l ++ x :: y :: r) [] = y.
Proof.
  rewrite app_nth2 by lia.
  replace (S (length l) - length l)%nat with 1%nat by lia. reflexivity.
Qed.

(** The loop appends to the two list objects what the store-free loop
    appends to its pair of lists, and touches nothing else. *)
Lemma for_each_loop_turn (alt : list (list float)) (g : Notebook) (objects : list (list Z))
  (entries : list (Z * list Z)) (sunset_idx good_i : list Z) :
  Mutable.for_each (Mutable.loop_turn alt (length objects) (S (length objects))) entries
    (Mutable.mk_store g (objects ++ [sunset_idx; good_i]))
  = (Mutable.mk_store g
       (objects ++ [sunset_idx ++ map snd (picks alt entries);
                    good_i ++ map fst (picks alt entries)]),
     Ok tt).
Proof.
  revert sunset_idx good_i.
  induction entries as [| [i idx] entries IH]; intros sunset_idx good_i.
  - cbn. now rewrite !app_nil_r.
  - cbn [Mutable.for_each picks flat_map]. fold (picks alt entries).
    unfold Mutable.bind at 1.
    unfold Mutable.loop_turn, Mutable.try_except_IndexError, Mutable.bind,
      Mutable.lift, Mutable.append.
    destruct (try_sunset_idx alt i idx) as [j | []].
    + cbn [Mutable.globals Mutable.lists].
      rewrite update_first, update_second, IH.
      cbn [app map fst snd]. now rewrite <- !app_assoc.
    + rewrite IH. reflexivity.
Qed.

Lemma local_sunset_reads (utc : Pytz.tzinfo) (sun_time : list (list Q)) (ij : Z * Z)
  (nb : Notebook) :
  fst (local_sunset utc sun_time ij nb) = nb.
Proof.
  destruct ij as [i j].
  unfold local_sunset, nb_bind, nb_lift, nb_global, nb_ret.
  destruct (Np.getitem2 sun_time j i); [| reflexivity].
  destruct (Np.getitem (tzs nb) i); reflexivity.
Qed.

Lemma nb_map_local_sunset_reads (utc : Pytz.tzinfo) (sun_time : list (list Q))
  (w : list (Z * Z)) (nb : Notebook) :
  fst (nb_map (local_sunset utc sun_time) w nb) = nb.
Proof.
  induction w as [| ij w IH]; [reflexivity |].
  cbn [nb_map]. unfold nb_bind at 1.
  pose proof (local_sunset_reads utc sun_time ij nb) as H1.
  destruct (local_sunset utc sun_time ij nb) as [nb1 [dt | e]]; cbn [fst] in H1; subst nb1;
    [| reflexivity].
  unfold nb_bind at 1.
  destruct (nb_map (local_sunset utc sun_time) w nb) as [nb2 [dts | e]];
    cbn [fst] in IH; subst nb2; reflexivity.
Qed.

Lemma mutable_local_sunset (utc : Pytz.tzinfo) (sun_time : list (list Q)) (ij : Z * Z)
  (s : Mutable.Store) :
  Mutable.local_sunset utc sun_time ij s
  = (s, snd (local_sunset utc sun_time ij (Mutable.globals s))).
Proof.
  destruct ij as [i j].
  unfold Mutable.local_sunset, Mutable.bind, Mutable.lift, Mutable.global, Mutable.ret.
  unfold local_sunset, nb_bind, nb_lift, nb_global, nb_ret.
  destruct (Np.getitem2 sun_time j i); [| reflexivity].
  destruct (Np.getitem (tzs (Mutable.globals s)) i); reflexivity.
Qed.

Lemma map_py_local_sunset (utc : Pytz.tzinfo) (sun_time : list (list Q))
  (w : list (Z * Z)) (s : Mutable.Store) :
  Mutable.map_py (Mutable.local_sunset utc sun_time) w s
  = (s, snd (nb_map (local_sunset utc sun_time) w (Mutable.globals s))).
Proof.
  induction w as [| ij w IH]; [reflexivity |].
  cbn [Mutable.map_py nb_map]. unfold Mutable.bind at 1, nb_bind at 1.
  rewrite mutable_local_sunset.
  pose proof (local_sunset_reads utc sun_time ij (Mutable.globals s)) as H1.
  destruct (local_sunset utc sun_time ij (Mutable.globals s)) as [nb1 [dt | e]];
    cbn [fst snd] in *; subst nb1; [| reflexivity].
  unfold Mutable.bind at 1, nb_bind at 1. rewrite IH.
  pose proof (nb_map_local_sunset_reads utc sun_time w (Mutable.globals s)) as H2.
  destruct (nb_map (local_sunset utc sun_time) w (Mutable.globals s)) as [nb2 [dts | e]];
    cbn [fst snd] in *; subst nb2; reflexivity.
Qed.

(** A call creates two list objects, fills them, and returns what the
    store-free [sunset_time] returns on the same globals. *)
Lemma mutable_sunset_time_eq (sun_alt : EarthLocation -> Q -> float)
  (locs : list EarthLocation) (time : Q) (n_time : nat) (s : Mutable.Store) :
  Mutable.sunset_time sun_alt locs time n_time s
  = (Mutable.mk_store (Mutable.globals s)
       (Mutable.lists s ++ [map snd (winners sun_alt (time_grid time n_time) locs);
                            map fst (winners sun_alt (time_grid time n_time) locs)]),
     snd (sunset_time sun_alt locs time n_time (Mutable.globals s))).
Proof.
  unfold Mutable.sunset_time, sunset_time.
  set (grid := time_grid time n_time).
  rewrite fold_loop_body, picks_winners. cbn [app]. rewrite combine_fst_snd.
  set (w := winners sun_alt grid locs).
  unfold Mutable.bind at 1. unfold Mutable.new_list at 1.
  unfold Mutable.bind at 1. unfold Mutable.new_list at 1.
  cbn [Mutable.globals Mutable.lists].
  rewrite length_app. cbn [length]. rewrite Nat.add_1_r.
  rewrite <- app_assoc. cbn [app].
  unfold Mutable.bind at 1.
  rewrite for_each_loop_turn, picks_winners. fold w. cbn [app].
  unfold Mutable.bind at 1. unfold Mutable.array at 1. cbn [Mutable.lists].
  unfold Mutable.bind at 1. unfold Mutable.array at 1. cbn [Mutable.lists].
  rewrite nth_first, nth_second, combine_fst_snd.
  unfold Mutable.bind, Mutable.ret. rewrite map_py_local_sunset.
  cbn [Mutable.globals]. unfold nb_bind, nb_ret.
  pose proof (nb_map_local_sunset_reads Pytz.utc (obstime_datetime grid locs) w
                (Mutable.globals s)) as H.
  destruct (nb_map (local_sunset Pytz.utc (obstime_datetime grid locs)) w
              (Mutable.globals s)) as [nb' [sunsets | e]];
    cbn [fst snd] in *; reflexivity.
Qed.

(** C8.  Here the two lists the function fills are objects in a store that
    also holds the notebook's globals and every other list object.  Take two
    stores that agree on the timezone table, whatever else they hold, and
    run [sunset_time] with the same locations, the same day and the same grid
    size (the ephemeris being the same function): the two calls return the
    same indices and the same timestamps, or raise the same exception; so
    does a second call made right after the first, in the store it left.  A
    call leaves the globals as they were and every object that existed
    before it as it was: it writes only to the two list objects it creates.
    What it returns is what the store-free [sunset_time] returns on the same
    globals. *)
Theorem sunset_time_is_deterministic_and_stateless
  (sun_alt : EarthLocation -> Q -> float) (locs : list EarthLocation)
  (time : Q) (n_time : nat) (s s' : Mutable.Store) :
  tzs (Mutable.globals s) = tzs (Mutable.globals s') ->
  let first := Mutable.sunset_time sun_alt locs time n_time s in
  let other := Mutable.sunset_time sun_alt locs time n_time s' in
  let second := Mutable.sunset_time sun_alt locs time n_time (fst first) in
  snd other = snd first
  /\ snd second = snd first
  /\ Mutable.globals (fst first) = Mutable.globals s
  /\ firstn (length (Mutable.lists s)) (Mutable.lists (fst first)) = Mutable.lists s
  /\ snd first = snd (sunset_time sun_alt locs time n_time (Mutable.globals s)).
Proof.
  intros Htzs. cbv zeta.
  rewrite (mutable_sunset_time_eq sun_alt locs time n_time s). cbn [fst snd].
  rewrite (mutable_sunset_time_eq sun_alt locs time n_time s'). cbn [fst snd].
  rewrite mutable_sunset_time_eq. cbn [fst snd Mutable.globals Mutable.lists].
  split; [| split; [| split; [| split]]]; try reflexivity.
  - rewrite !sunset_time_eq. cbn [snd]. cbv zeta. now rewrite Htzs.
  - rewrite firstn_app, Nat.sub_diag, firstn_all. cbn [firstn]. apply app_nil_r.
Qed.

Lemma sunset_time_is_deterministic_and_stateless_witness :
  snd (Mutable.sunset_time Demo.sun_alt Demo.locs (midnight 10) 9
         (Mutable.mk_store (mk_notebook [] (tzs Demo.nb) 0) []))
  = snd (Mutable.sunset_time Demo.sun_alt Demo.locs (midnight 10) 9
           (Mutable.mk_store Demo.nb [[5]; []])).
Proof.
  exact (proj1 (sunset_time_is_deterministic_and_stateless Demo.sun_alt Demo.locs
                  (midnight 10) 9
                  (Mutable.mk_store Demo.nb [[5]; []])
                  (Mutable.mk_store (mk_notebook [] (tzs Demo.nb) 0) [])
                  eq_refl)).
Defined.

(** ** C9: a timezone at offset zero *)

Lemma transition_info_zero (trans : list (Q * Pytz.tzoffset)) (cur : Pytz.tzoffset) (u : Q) :
  (Pytz.utcoffset cur == 0)%Q ->
  Forall (fun p => (Pytz.utcoffset (snd p) == 0)%Q) trans ->
  (Pytz.utcoffset (Pytz.transition_info_at cur trans u) == 0)%Q.
Proof.
  intros Hcur Hall. revert cur Hcur.
  induction Hall as [| [t1 inf1] rest H1 Hall IH]; intros cur Hcur; cbn.
  - exact Hcur.
  - destruct (Qle_bool t1 u); [apply IH; exact H1 | exact Hcur].
Qed.

(** C9.  For every UTC instant [t] and every timezone whose offset from UTC
    is fixed at zero, the conversion of [sunset_time] gives a timestamp whose
    wall-clock reading is [t] itself, at offset zero. *)
Theorem zero_offset_conversion_is_identity (t : Q) (z : Pytz.tzinfo) :
  fixed_zero_offset z ->
  let s := Pytz.astimezone (Pytz.localize_utc t) z in
  (Pytz.wall s == t)%Q /\ (Pytz.utcoffset (Pytz.info s) == 0)%Q.
Proof.
  intros Hz. destruct z as [| zone offset | zone before trans]; cbn in *.
  - split; reflexivity.
  - split; [| exact Hz]. rewrite Hz. unfold Pytz.ZERO. ring.
  - destruct Hz as [Hb Hall].
    pose proof (transition_info_zero trans before (t - Pytz.ZERO)%Q Hb Hall) as H0.
    split; [| exact H0]. rewrite H0. unfold Pytz.ZERO. ring.
Qed.

Lemma zero_offset_conversion_is_identity_witness :
  (Pytz.wall (Pytz.astimezone (Pytz.localize_utc (midnight 17558 + 23))
                (Pytz.StaticTzInfo "Etc/GMT" 0))
   == midnight 17558 + 23)%Q
  /\ (Pytz.wall (Pytz.astimezone (Pytz.localize_utc (midnight 17558 + 23)) Pytz.UTC)
      == midnight 17558 + 23)%Q.
Proof.
  assert (Hs : fixed_zero_offset (Pytz.StaticTzInfo "Etc/GMT" 0)) by (cbn; reflexivity).
  split.
  - exact (proj1 (zero_offset_conversion_is_identity (midnight 17558 + 23)
                    (Pytz.StaticTzInfo "Etc/GMT" 0) Hs)).
  - exact (proj1 (zero_offset_conversion_is_identity (midnight 17558 + 23) Pytz.UTC I)).
Defined.

(** ** C10: the timezone comes from the global table *)




(** * The rest of the notebook *)

From Stdlib Require Import Lqa.

(** ** Floors and times of day *)

Lemma Qfloor_unique (x : Q) (z : Z) :
  (inject_Z z <= x)%Q -> (x < inject_Z (z + 1))%Q -> Qfloor x = z.
Proof.
  intros Hle Hlt.
  pose proof (Qfloor_le x) as H1. pose proof (Qlt_floor x) as H2.
  assert (Ha : (inject_Z (Qfloor x) < inject_Z (z + 1))%Q) by (eapply Qle_lt_trans; eassumption).
  assert (Hb : (inject_Z z < inject_Z (Qfloor x + 1))%Q) by (eapply Qle_lt_trans; eassumption).
  rewrite <- Zlt_Qlt in Ha, Hb. lia.
Qed.

Lemma time_of_day_range (t : Q) : (0 <= time_of_day t /\ time_of_day t < 24)%Q.
Proof.
  unfold time_of_day.
  pose proof (Qfloor_le (t / 24)) as H1. pose proof (Qlt_floor (t / 24)) as H2.
  rewrite inject_Z_plus in H2.
  assert (E : (t == 24 * (t / 24))%Q) by field.
  set (f := inject_Z (Qfloor (t / 24))) in *.
  set (q := (t / 24)%Q) in *.
  change (inject_Z 1) with 1%Q in H2.
  split; lra.
Qed.

(** ** X1: decimal hours *)

Lemma fields_of_whole_seconds (T : Z) :
  T = 3600 * (T / 3600) + 60 * ((T / 60) mod 60) + T mod 60.
Proof. Z.div_mod_to_equations. lia. Qed.

Lemma decimal_hours_whole_seconds (s : Pytz.datetime) :
  (inject_Z (Plot.hour s) + inject_Z (Plot.minute s) / 60 + inject_Z (Plot.second s) / 3600
   == inject_Z (Plot.whole_seconds s) / 3600)%Q.
Proof.
  unfold Plot.hour, Plot.minute, Plot.second.
  set (T := Plot.whole_seconds s).
  rewrite (fields_of_whole_seconds T) at 4.
  rewrite !inject_Z_plus, !inject_Z_mult.
  change (inject_Z 3600) with 3600%Q. change (inject_Z 60) with 60%Q.
  field.
Qed.

Lemma decimal_hours_bounds (sunsets : list Pytz.datetime) :
  Forall2 (fun s h =>
             (0 <= h)%Q /\ (h < 24)%Q
             /\ (h <= time_of_day (Pytz.wall s))%Q
             /\ (time_of_day (Pytz.wall s) < h + (1 # 3600))%Q)
    sunsets (Plot.sunset_hours sunsets).
Proof.
  unfold Plot.sunset_hours. induction sunsets as [| s sunsets IH]; cbn [map].
  - constructor.
  - constructor; [| exact IH].
    rewrite decimal_hours_whole_seconds.
    destruct (time_of_day_range (Pytz.wall s)) as [H0 H24].
    unfold Plot.whole_seconds.
    set (tod := time_of_day (Pytz.wall s)) in *.
    pose proof (Qfloor_le (3600 * tod)) as H1.
    pose proof (Qlt_floor (3600 * tod)) as H2.
    rewrite inject_Z_plus in H2. change (inject_Z 1) with 1%Q in H2.
    assert (Hpos : (0 <= inject_Z (Qfloor (3600 * tod)))%Q).
    { change 0%Q with (inject_Z 0). rewrite <- Zle_Qle.
      rewrite <- (Qfloor_Z 0). apply Qfloor_resp_le. change (inject_Z 0) with 0%Q. lra. }
    set (T := inject_Z (Qfloor (3600 * tod))) in *.
    assert (E : (T == 3600 * (T / 3600))%Q) by field.
    set (h := (T / 3600)%Q) in *.
    repeat split; lra.
Qed.

Lemma sunset_hours_in_day (sunsets : list Pytz.datetime) :
  Forall (fun h => (0 <= h)%Q /\ (h < 24)%Q) (Plot.sunset_hours sunsets).
Proof.
  pose proof (decimal_hours_bounds sunsets) as H.
  induction H as [| s h ss hs Hsh _ IH]; constructor; [tauto | exact IH].
Qed.

(** X1.  Each entry of [sunset_hours] is the hour, minute and second of the
    timestamp's wall-clock reading put together as a decimal hour: it lies
    in [0, 24) and is within one second of the reading's time of day, the
    fraction of a second being left out. *)
Theorem sunset_hours_are_within_a_second (sunsets : list Pytz.datetime) :
  Forall2 (fun s h =>
             (0 <= h)%Q /\ (h < 24)%Q
             /\ (time_of_day (Pytz.wall s) - (1 # 3600) < h)%Q
             /\ (h < time_of_day (Pytz.wall s) + (1 # 3600))%Q)
    sunsets (Plot.sunset_hours sunsets).
Proof.
  pose proof (decimal_hours_bounds sunsets) as H.
  induction H as [| s h ss hs (H0 & H24 & Hle & Hlt) _ IH]; constructor; [| exact IH].
  repeat split; lra.
Qed.

(** ** X2, X3: the median and its rounding to the half hour *)

Lemma Forall_insert (P : Q -> Prop) (x : Q) (l : list Q) :
  P x -> Forall P l -> Forall P (Plot.insert x l).
Proof.
  intros Hx Hl. induction Hl as [| y l Hy Hl IH]; cbn.
  - now constructor.
  - destruct (Qle_bool x y); repeat constructor; assumption.
Qed.

Lemma Forall_sort (P : Q -> Prop) (l : list Q) : Forall P l -> Forall P (Plot.sort l).
Proof.
  intros Hl. induction Hl as [| x l Hx Hl IH].
  - constructor.
  - change (Plot.sort (x :: l)) with (Plot.insert x (Plot.sort l)).
    now apply Forall_insert.
Qed.

Lemma length_insert (x : Q) (l : list Q) : length (Plot.insert x l) = S (length l).
Proof.
  induction l as [| y l IH]; cbn; [reflexivity |].
  destruct (Qle_bool x y); cbn; [reflexivity | now rewrite IH].
Qed.

Lemma length_sort (l : list Q) : length (Plot.sort l) = length l.
Proof.
  induction l as [| x l IH]; [reflexivity |].
  change (Plot.sort (x :: l)) with (Plot.insert x (Plot.sort l)).
  cbn [length]. now rewrite length_insert, IH.
Qed.

Lemma median_between (lo hi : Q) (a : list Q) (m : Q) :
  Forall (fun x => (lo <= x)%Q /\ (x < hi)%Q) a ->
  Plot.median a = Some m ->
  (lo <= m)%Q /\ (m < hi)%Q.
Proof.
  intros Hall Hm. unfold Plot.median in Hm.
  destruct (Nat.eqb_spec (length a) 0) as [| Hne]; [discriminate Hm |].
  apply Forall_sort in Hall.
  assert (Hnth : forall k, (k < length a)%nat ->
                           (lo <= nth k (Plot.sort a) 0)%Q /\ (nth k (Plot.sort a) 0 < hi)%Q).
  { intros k Hk. rewrite Forall_forall in Hall. apply Hall.
    apply nth_In. now rewrite length_sort. }
  assert (Hhalf : (length a / 2 < length a)%nat) by (apply Nat.div_lt; lia).
  destruct (Nat.even (length a)).
  - assert (Em : m = ((nth (length a / 2 - 1) (Plot.sort a) 0
                       + nth (length a / 2) (Plot.sort a) 0) / 2)%Q) by congruence.
    rewrite Em. clear Em Hm.
    destruct (Hnth (length a / 2 - 1)%nat) as [Ha1 Ha2]; [lia |].
    destruct (Hnth (length a / 2)%nat Hhalf) as [Hb1 Hb2].
    set (u := nth (length a / 2 - 1) (Plot.sort a) 0%Q) in *.
    set (v := nth (length a / 2) (Plot.sort a) 0%Q) in *.
    assert (E : (u + v == 2 * ((u + v) / 2))%Q) by field.
    set (w := ((u + v) / 2)%Q) in *.
    split; lra.
  - assert (Em : m = nth (length a / 2) (Plot.sort a) 0%Q) by congruence.
    rewrite Em. now apply Hnth.
Qed.

Lemma round_half_even_near (x : Q) :
  (inject_Z (Plot.round_half_even x) - (1 # 2) <= x)%Q
  /\ (x <= inject_Z (Plot.round_half_even x) + (1 # 2))%Q
  /\ ((x - inject_Z (Qfloor x) == 1 # 2)%Q -> Z.even (Plot.round_half_even x) = true).
Proof.
  unfold Plot.round_half_even.
  pose proof (Qfloor_le x) as H1. pose proof (Qlt_floor x) as H2.
  rewrite inject_Z_plus in H2. change (inject_Z 1) with 1%Q in H2.
  destruct (x - inject_Z (Qfloor x) ?= 1 # 2)%Q eqn:C.
  - apply Qeq_alt in C. destruct (Z.even (Qfloor x)) eqn:Ev.
    + split; [lra |]. split; [lra |]. intros _. exact Ev.
    + rewrite inject_Z_plus. change (inject_Z 1) with 1%Q.
      split; [lra |]. split; [lra |]. intros _.
      rewrite Z.add_1_r, Z.even_succ, <- Z.negb_even, Ev. reflexivity.
  - apply Qlt_alt in C. split; [lra |]. split; [lra |]. intros E. lra.
  - apply Qgt_alt in C. rewrite inject_Z_plus. change (inject_Z 1) with 1%Q.
    split; [lra |]. split; [lra |]. intros E. lra.
Qed.

Lemma med_hour_near (x : Q) (hours : list Q) :
  exists (m : Q) (r : Z),
    Plot.median (x :: hours) = Some m
    /\ Plot.med_hour (x :: hours) = Some ((1 # 2) * inject_Z r)%Q
    /\ ((1 # 2) * inject_Z r - (1 # 4) <= m)%Q
    /\ (m <= (1 # 2) * inject_Z r + (1 # 4))%Q
    /\ ((m / (1 # 2) - inject_Z (Qfloor (m / (1 # 2))) == 1 # 2)%Q -> Z.even r = true).
Proof.
  unfold Plot.med_hour.
  destruct (Plot.median (x :: hours)) as [m |] eqn:Hm.
  - exists m, (Plot.round_half_even (m / (1 # 2))).
    split; [reflexivity |]. split; [reflexivity |].
    destruct (round_half_even_near (m / (1 # 2))) as (Hlo & Hhi & Heven).
    assert (E : (m / (1 # 2) == 2 * m)%Q) by field.
    set (r := inject_Z (Plot.round_half_even (m / (1 # 2)))) in *.
    set (q := (m / (1 # 2))%Q) in *.
    split; [lra |]. split; [lra | exact Heven].
  - unfold Plot.median in Hm. cbn [length Nat.eqb] in Hm.
    destruct (Nat.even (S (length hours))); discriminate Hm.
Qed.

(** X2.  [med_hour] of an empty array is NaN.  Of a non-empty one it is a
    whole number [r] of half hours, no more than a quarter of an hour away
    from the median. *)
Theorem med_hour_is_a_half_hour_near_the_median (x : Q) (hours : list Q) :
  Plot.med_hour [] = None
  /\ exists (m : Q) (r : Z),
      Plot.median (x :: hours) = Some m
      /\ Plot.med_hour (x :: hours) = Some ((1 # 2) * inject_Z r)%Q
      /\ ((1 # 2) * inject_Z r - (1 # 4) <= m)%Q
      /\ (m <= (1 # 2) * inject_Z r + (1 # 4))%Q.
Proof.
  split; [reflexivity |].
  destruct (med_hour_near x hours) as (m & r & Hm & Hmed & Hlo & Hhi & _).
  exists m, r. tauto.
Qed.

(** X3.  Whatever timestamps come first, when there is at least one the
    median of their decimal hours lies in [0, 24) and [med_hour] is a whole
    number of half hours from 0 to 24, both included. *)
Theorem med_hour_of_sunsets_is_within_the_day (s : Pytz.datetime)
  (sunsets : list Pytz.datetime) :
  exists (m : Q) (r : Z),
    Plot.median (Plot.sunset_hours (s :: sunsets)) = Some m
    /\ (0 <= m)%Q /\ (m < 24)%Q
    /\ Plot.med_hour (Plot.sunset_hours (s :: sunsets)) = Some ((1 # 2) * inject_Z r)%Q
    /\ 0 <= r <= 48.
Proof.
  pose proof (sunset_hours_in_day (s :: sunsets)) as Hall.
  cbn [Plot.sunset_hours map] in *.
  destruct (med_hour_near
              (inject_Z (Plot.hour s) + inject_Z (Plot.minute s) / 60
               + inject_Z (Plot.second s) / 3600)%Q
              (map (fun s0 => (inject_Z (Plot.hour s0) + inject_Z (Plot.minute s0) / 60
                               + inject_Z (Plot.second s0) / 3600)%Q) sunsets))
    as (m & r & Hm & Hmed & Hlo & Hhi & _).
  exists m, r. split; [exact Hm |].
  destruct (median_between 0 24 _ m Hall Hm) as [H0 H24].
  split; [exact H0 |]. split; [exact H24 |]. split; [exact Hmed |].
  assert (Ha : (inject_Z (-1) < inject_Z r)%Q) by (change (inject_Z (-1)) with (-1)%Q; lra).
  assert (Hb : (inject_Z r < inject_Z 49)%Q) by (change (inject_Z 49) with 49%Q; lra).
  rewrite <- Zlt_Qlt in Ha, Hb. lia.
Qed.

(** ** X4: the ticks of the colour bar *)

Lemma cb_ticks_five (med : Q) :
  Forall2 Qeq (Plot.cb_ticks med)
    [med - 1; med - (1 # 2); med; med + (1 # 2); med + 1]%Q.
Proof.
  unfold Plot.cb_ticks, Plot.arange.
  assert (E : ((med + 1 + (1 # 10) - (med - 1)) / (1 # 2) == 21 # 5)%Q) by field.
  rewrite (Qceiling_comp _ _ E).
  change (Z.to_nat (Qceiling (21 # 5))) with 5%nat.
  cbn [seq map]. repeat constructor; cbn [Z.of_nat]; ring.
Qed.

(** X4.  With no sunset at all, [med_hour] is NaN and the ticks of the colour
    bar cannot be made: [np.arange] raises [ValueError].  With at least one
    sunset, [med_hour] is a number and the colour bar has exactly five ticks,
    half an hour apart and centred on it: [med_hour - 1], [med_hour - 0.5],
    [med_hour], [med_hour + 0.5] and [med_hour + 1]. *)
Theorem cb_ticks_are_five_or_raise (s : Pytz.datetime) (sunsets : list Pytz.datetime) :
  cb_ticks_of (Plot.med_hour (Plot.sunset_hours [])) = Plot.Fail Plot.ValueError
  /\ exists (med : Q) (ticks : list Q),
      Plot.med_hour (Plot.sunset_hours (s :: sunsets)) = Some med
      /\ cb_ticks_of (Plot.med_hour (Plot.sunset_hours (s :: sunsets))) = Plot.Done ticks
      /\ Forall2 Qeq ticks [med - 1; med - (1 # 2); med; med + (1 # 2); med + 1]%Q.
Proof.
  split; [reflexivity |].
  cbn [Plot.sunset_hours map].
  destruct (med_hour_near
              (inject_Z (Plot.hour s) + inject_Z (Plot.minute s) / 60
               + inject_Z (Plot.second s) / 3600)%Q
              (map (fun s0 => (inject_Z (Plot.hour s0) + inject_Z (Plot.minute s0) / 60
                               + inject_Z (Plot.second s0) / 3600)%Q) sunsets))
    as (m & r & _ & Hmed & _).
  exists ((1 # 2) * inject_Z r)%Q, (Plot.cb_ticks ((1 # 2) * inject_Z r)%Q).
  split; [exact Hmed |]. rewrite Hmed. split; [reflexivity |].
  apply cb_ticks_five.
Qed.

(** ** X5, X6: the labels of the colour bar *)

Lemma int_floor_or_ceiling (x : Q) :
  Plot.int x = if 0 <=? Qnum x then Qfloor x else Qceiling x.
Proof.
  destruct x as [a d]. unfold Plot.int, Qceiling, Qfloor. cbn [Qnum Qden Qopp].
  destruct (Z.leb_spec 0 a) as [Hpos | Hneg].
  - apply Z.quot_div_nonneg; lia.
  - rewrite <- (Z.opp_involutive a) at 1. rewrite Z.quot_opp_l by lia.
    f_equal. apply Z.quot_div_nonneg; lia.
Qed.

Lemma int_comp (x y : Q) : (x == y)%Q -> Plot.int x = Plot.int y.
Proof.
  intros E. rewrite !int_floor_or_ceiling.
  rewrite (Qfloor_comp _ _ E), (Qceiling_comp _ _ E).
  assert (Hsign : (0 <=? Qnum x) = (0 <=? Qnum y)).
  { unfold Qeq in E.
    destruct (Z.leb_spec 0 (Qnum x)), (Z.leb_spec 0 (Qnum y)); try reflexivity; nia. }
  now rewrite Hsign.
Qed.

Lemma cb_label_comp (x y : Q) : (x == y)%Q -> Plot.cb_label x = Plot.cb_label y.
Proof.
  intros E. unfold Plot.cb_label.
  rewrite (int_comp x y E).
  rewrite (int_comp (60 * (x - inject_Z (Qfloor x))) (60 * (y - inject_Z (Qfloor y)))).
  - reflexivity.
  - rewrite (Qfloor_comp _ _ E), E. reflexivity.
Qed.

Lemma cb_label_half (j : Z) :
  Plot.cb_label (j # 2) =
  if (-1 <=? j) && (j <=? 47)
  then Plot.Done (Plot.strftime_HM (Z.quot j 2, 30 * (j mod 2)))
  else Plot.Fail Plot.ValueError.
Proof.
  unfold Plot.cb_label.
  assert (Hh : Plot.int (j # 2) = Z.quot j 2) by reflexivity.
  assert (Hm : Plot.int (60 * ((j # 2) - inject_Z (Qfloor (j # 2)))) = 30 * (j mod 2)).
  { unfold Plot.int, Qfloor. cbn [Qnum Qden Qmult Qminus Qplus Qopp inject_Z].
    change (Z.pos (1 * (2 * 1))) with 2.
    Z.to_euclidean_division_equations. lia. }
  rewrite Hh, Hm. unfold Plot.time.
  destruct (Z.leb_spec (-1) j), (Z.leb_spec j 47); cbn [andb].
  - destruct (Z.leb_spec 0 (Z.quot j 2)), (Z.leb_spec (Z.quot j 2) 23),
      (Z.leb_spec 0 (30 * (j mod 2))), (Z.leb_spec (30 * (j mod 2)) 59);
      cbn [andb Plot.obind]; try reflexivity;
      exfalso; Z.to_euclidean_division_equations; lia.
  - destruct (Z.leb_spec (Z.quot j 2) 23); rewrite ?andb_false_r; cbn [andb Plot.obind];
      try reflexivity.
    exfalso; Z.to_euclidean_division_equations; lia.
  - destruct (Z.leb_spec 0 (Z.quot j 2)); cbn [andb Plot.obind]; try reflexivity.
    exfalso; Z.to_euclidean_division_equations; lia.
  - lia.
Qed.

Lemma digit_ascii (d : nat) :
  (d <= 9)%nat -> Plot.digit (Ascii.ascii_of_nat (48 + d)) = Some (Z.of_nat d).
Proof.
  intros Hd. do 10 (destruct d as [| d]; [reflexivity |]). lia.
Qed.

Lemma label_hours_strftime (h m : Z) :
  0 <= h <= 99 -> 0 <= m <= 99 ->
  Plot.label_hours (Plot.strftime_HM (h, m)) = Some (inject_Z h + inject_Z m / 60)%Q.
Proof.
  intros Hh Hm. unfold Plot.strftime_HM, Plot.two_digits. cbn [fst snd String.append].
  unfold Plot.label_hours.
  assert (Hd : forall n, 0 <= n <= 99 ->
                 (Z.to_nat (n / 10) <= 9)%nat /\ (Z.to_nat (n mod 10) <= 9)%nat
                 /\ 10 * Z.of_nat (Z.to_nat (n / 10)) + Z.of_nat (Z.to_nat (n mod 10)) = n).
  { intros n Hn. Z.to_euclidean_division_equations. lia. }
  destruct (Hd h Hh) as (Hh1 & Hh0 & Eh). destruct (Hd m Hm) as (Hm1 & Hm0 & Em).
  rewrite !digit_ascii by assumption.
  change (Ascii.eqb (Ascii.Ascii false true false true true true false false)
            (Ascii.ascii_of_nat 58)) with true.
  cbv iota. now rewrite Eh, Em.
Qed.

Lemma half_hours_value (j : Z) :
  0 <= j ->
  (inject_Z (Z.quot j 2) + inject_Z (30 * (j mod 2)) / 60 == j # 2)%Q.
Proof.
  intros Hj. rewrite (Qmake_Qdiv j 2).
  assert (E : j = 2 * Z.quot j 2 + j mod 2) by (Z.to_euclidean_division_equations; lia).
  rewrite E at 3. rewrite !inject_Z_plus, !inject_Z_mult.
  change (inject_Z 30) with 30%Q. change (inject_Z 2) with 2%Q.
  change (inject_Z (Z.pos 2)) with 2%Q. field.
Qed.

(** X5.  The label of a tick that is a whole number [j] of half hours:
    from 00:00 to 23:30 (0 <= j <= 47) the label reads back as the tick
    itself; beyond that range on either side ([j <= -2] or [48 <= j])
    [datetime.time] raises [ValueError]; and the tick at minus half an hour
    gets, with no error, the label "00:30" of the tick at plus half an hour. *)
Theorem cb_label_reads_back_or_raises (j : Z) :
  (0 <= j <= 47 ->
   exists (label : string) (h : Q),
     Plot.cb_label (j # 2) = Plot.Done label
     /\ Plot.label_hours label = Some h /\ (h == j # 2)%Q)
  /\ (j <= -2 \/ 48 <= j -> Plot.cb_label (j # 2) = Plot.Fail Plot.ValueError)
  /\ Plot.cb_label (-1 # 2) = Plot.Done "00:30"%string
  /\ Plot.cb_label (1 # 2) = Plot.Done "00:30"%string.
Proof.
  split; [| split; [| split; reflexivity]].
  - intros Hj. rewrite cb_label_half.
    destruct (Z.leb_spec (-1) j); [| lia]. destruct (Z.leb_spec j 47); [| lia].
    cbn [andb]. eexists. eexists. split; [reflexivity |].
    split.
    + apply label_hours_strftime; Z.to_euclidean_division_equations; lia.
    + apply half_hours_value. lia.
  - intros Hj. rewrite cb_label_half.
    destruct (Z.leb_spec (-1) j), (Z.leb_spec j 47); cbn [andb]; try reflexivity; lia.
Qed.

Lemma cb_label_reads_back_or_raises_witness :
  (exists (label : string) (h : Q),
      Plot.cb_label (35 # 2) = Plot.Done label
      /\ Plot.label_hours label = Some h /\ (h == 35 # 2)%Q)
  /\ Plot.cb_label (48 # 2) = Plot.Fail Plot.ValueError.
Proof.
  split.
  - apply (proj1 (cb_label_reads_back_or_raises 35)). lia.
  - apply (proj1 (proj2 (cb_label_reads_back_or_raises 48))). lia.
Defined.

Lemma cb_labels_of_ticks (r : Z) :
  Plot.cb_labels (Plot.cb_ticks ((1 # 2) * inject_Z r)) =
  Plot.omap (fun i => Plot.cb_label ((r - 2 + i) # 2)) [0; 1; 2; 3; 4].
Proof.
  unfold Plot.cb_ticks, Plot.arange.
  set (med := ((1 # 2) * inject_Z r)%Q).
  assert (E : ((med + 1 + (1 # 10) - (med - 1)) / (1 # 2) == 21 # 5)%Q) by field.
  rewrite (Qceiling_comp _ _ E).
  change (Z.to_nat (Qceiling (21 # 5))) with 5%nat.
  cbn [seq map Plot.cb_labels Plot.omap].
  assert (Ht : forall i : nat,
             Plot.cb_label (med - 1 + inject_Z (Z.of_nat i) * (1 # 2))
             = Plot.cb_label ((r - 2 + Z.of_nat i) # 2)).
  { intros i. apply cb_label_comp. unfold med.
    rewrite (Qmake_Qdiv (r - 2 + Z.of_nat i) 2).
    unfold Z.sub. rewrite !inject_Z_plus, inject_Z_opp.
    change (inject_Z 2) with 2%Q. change (inject_Z (Z.pos 2)) with 2%Q. field. }
  rewrite !Ht. reflexivity.
Qed.

(** X6.  The labels of the colour bar, [med_hour] being [r] half hours.
    From 00:30 to 22:30 (1 <= r <= 45) the five labels are built; when
    [r <= 0] or [46 <= r] a tick falls outside the day and the cell raises
    [ValueError]; and from 01:00 on (2 <= r <= 45) each label reads back as
    its tick. *)
Theorem cb_labels_need_the_ticks_within_the_day (r : Z) :
  let ticks := Plot.cb_ticks ((1 # 2) * inject_Z r) in
  (1 <= r <= 45 ->
   exists labels, Plot.cb_labels ticks = Plot.Done labels /\ length labels = 5%nat)
  /\ (r <= 0 \/ 46 <= r -> Plot.cb_labels ticks = Plot.Fail Plot.ValueError)
  /\ (2 <= r <= 45 ->
      exists labels,
        Plot.cb_labels ticks = Plot.Done labels
        /\ Forall2 (fun tick label =>
                      exists h, Plot.label_hours label = Some h /\ (h == tick)%Q)
             ticks labels).
Proof.
  intros ticks. unfold ticks.
  split; [| split].
  - intros Hr. rewrite cb_labels_of_ticks. cbn [Plot.omap]. rewrite !cb_label_half.
    repeat match goal with
           | |- context [?a <=? ?b] => destruct (Z.leb_spec a b); [| lia]
           end.
    cbn [andb Plot.obind]. eexists. split; reflexivity.
  - intros Hr. rewrite cb_labels_of_ticks. cbn [Plot.omap]. rewrite !cb_label_half.
    repeat match goal with
           | |- context [?a <=? ?b] => destruct (Z.leb_spec a b)
           end; cbn [andb Plot.obind]; try reflexivity; lia.
  - intros Hr.
    pose proof (cb_labels_of_ticks r) as Hl. cbn [Plot.omap] in Hl.
    rewrite !cb_label_half in Hl.
    repeat match type of Hl with
           | context [?a <=? ?b] => destruct (Z.leb_spec a b); [| lia]
           end.
    cbn [andb Plot.obind] in Hl. eexists. split; [exact Hl |].
    unfold Plot.cb_ticks, Plot.arange.
    set (med := ((1 # 2) * inject_Z r)%Q).
    assert (E : ((med + 1 + (1 # 10) - (med - 1)) / (1 # 2) == 21 # 5)%Q) by field.
    rewrite (Qceiling_comp _ _ E).
    change (Z.to_nat (Qceiling (21 # 5))) with 5%nat.
    cbn [seq map].
    assert (Hone : forall i : nat, (i <= 4)%nat ->
               exists h, Plot.label_hours
                           (Plot.strftime_HM (Z.quot (r - 2 + Z.of_nat i) 2,
                                              30 * ((r - 2 + Z.of_nat i) mod 2))) = Some h
                         /\ (h == med - 1 + inject_Z (Z.of_nat i) * (1 # 2))%Q).
    { intros i Hi. eexists. split.
      - apply label_hours_strftime; Z.to_euclidean_division_equations; lia.
      - rewrite half_hours_value by lia. unfold med.
        rewrite (Qmake_Qdiv (r - 2 + Z.of_nat i) 2).
        unfold Z.sub. rewrite !inject_Z_plus, inject_Z_opp.
        change (inject_Z 2) with 2%Q. change (inject_Z (Z.pos 2)) with 2%Q. field. }
    repeat constructor.
    + apply (Hone 0%nat); lia.
    + apply (Hone 1%nat); lia.
    + apply (Hone 2%nat); lia.
    + apply (Hone 3%nat); lia.
    + apply (Hone 4%nat); lia.
Qed.

Lemma cb_labels_need_the_ticks_within_the_day_witness :
  (exists labels,
      Plot.cb_labels (Plot.cb_ticks ((1 # 2) * inject_Z 35)) = Plot.Done labels
      /\ length labels = 5%nat)
  /\ Plot.cb_labels (Plot.cb_ticks ((1 # 2) * inject_Z 46)) = Plot.Fail Plot.ValueError.
Proof.
  split.
  - apply (proj1 (cb_labels_need_the_ticks_within_the_day 35)). lia.
  - apply (proj1 (proj2 (cb_labels_need_the_ticks_within_the_day 46))). lia.
Defined.

(** ** X7, X8, X9: the county patches *)

Lemma omap_ok {A B : Type} (f : A -> Plot.outcome B) (g : A -> B) (l : list A) :
  (forall a, In a l -> f a = Plot.Done (g a)) -> Plot.omap f l = Plot.Done (map g l).
Proof.
  induction l as [| a l IH]; intros H; [reflexivity |].
  cbn [Plot.omap map]. rewrite (H a (or_introl eq_refl)). cbn [Plot.obind].
  rewrite IH by (intros b Hb; apply H; now right). reflexivity.
Qed.

Lemma nonzero_head (mask : list bool) (k0 : Z) (rest : list Z) :
  Np.nonzero mask = k0 :: rest ->
  0 <= k0 < Z.of_nat (length mask)
  /\ nth (Z.to_nat k0) mask false = true
  /\ (forall k', 0 <= k' < k0 -> nth (Z.to_nat k') mask false = false).
Proof.
  intros E.
  assert (Hin : forall k, In k (k0 :: rest) <->
                          0 <= k < Z.of_nat (length mask) /\ nth (Z.to_nat k) mask false = true).
  { intros k. rewrite <- E. unfold Np.nonzero.
    rewrite in_nonzero_from, Z.sub_0_r, Z.add_0_l. reflexivity. }
  pose proof (nonzero_from_sorted mask 0) as Hs. fold (Np.nonzero mask) in Hs. rewrite E in Hs.
  destruct (proj1 (Hin k0) (or_introl eq_refl)) as [Hr Ht].
  split; [exact Hr |]. split; [exact Ht |].
  intros k' Hk'. destruct (nth (Z.to_nat k') mask false) eqn:Hm; [| reflexivity].
  exfalso. assert (Hk : In k' (k0 :: rest)) by (apply Hin; split; [lia | exact Hm]).
  inversion Hs as [| ? ? _ Hall]; subst. rewrite Forall_forall in Hall.
  destruct Hk as [-> | Hk]; [lia |]. specialize (Hall _ Hk). lia.
Qed.

Lemma nonzero_empty (mask : list bool) (k : Z) :
  Np.nonzero mask = [] -> 0 <= k < Z.of_nat (length mask) ->
  nth (Z.to_nat k) mask false = false.
Proof.
  intros E Hk. destruct (nth (Z.to_nat k) mask false) eqn:Hm; [| reflexivity].
  exfalso. assert (Hin : In k (Np.nonzero mask)).
  { unfold Np.nonzero. rewrite in_nonzero_from, Z.sub_0_r. split; [lia | exact Hm]. }
  now rewrite E in Hin.
Qed.

Lemma contains_in (x : Z) (a : list Z) : Plot.contains x a = true <-> In x a.
Proof.
  unfold Plot.contains. rewrite existsb_exists. split.
  - intros (y & Hy & E). apply Z.eqb_eq in E. now subst.
  - intros H. exists x. split; [exact H | apply Z.eqb_refl].
Qed.

Section Patches.

Variable county_geoid good_i : list Z.
Variable hours : list Q.

Hypothesis labels_in_range :
  Forall (fun l => 0 <= l < Z.of_nat (length county_geoid)) good_i.
Hypothesis hours_aligned : length hours = length good_i.

Lemma county_patch_eq (entry : Z * Z) :
  Plot.county_patch county_geoid good_i hours entry
  = Plot.Done (Plot.patch_of county_geoid good_i hours entry).
Proof.
  destruct entry as [i geoid]. unfold Plot.county_patch, Plot.patch_of, Plot.series_getitem.
  rewrite (omap_ok _ (fun l => nth (Z.to_nat l) county_geoid 0)).
  - cbn [Plot.obind]. rewrite map_map.
    set (mask := map (fun l => nth (Z.to_nat l) county_geoid 0 =? geoid) good_i).
    destruct (Np.nonzero mask) as [| k0 rest] eqn:E; [reflexivity |].
    destruct (Plot.contains k0 good_i); [| reflexivity].
    assert (Hr : forall k, In k (k0 :: rest) -> 0 <= k < Z.of_nat (length hours)).
    { intros k Hk. rewrite <- E in Hk. unfold Np.nonzero in Hk.
      apply in_nonzero_from in Hk. unfold mask in Hk. rewrite length_map in Hk. lia. }
    rewrite (omap_ok _ (fun k => nth (Z.to_nat k) hours 0%Q)).
    + cbn [Plot.obind map]. rewrite getitem_first. reflexivity.
    + intros k Hk. rewrite (getitem_ok hours k 0%Q) by now apply Hr. reflexivity.
  - intros l Hl. rewrite Forall_forall in labels_in_range.
    specialize (labels_in_range l Hl).
    destruct (Z.leb_spec 0 l); [| lia].
    destruct (Z.ltb_spec l (Z.of_nat (length county_geoid))); [| lia].
    reflexivity.
Qed.

Lemma county_patches_eq (counties_info : list Z) :
  Plot.county_patches county_geoid good_i hours counties_info
  = Plot.Done (flat_map (Plot.patch_of county_geoid good_i hours) (enumerate counties_info)).
Proof.
  unfold Plot.county_patches.
  induction (enumerate counties_info) as [| entry rest IH]; [reflexivity |].
  cbn [Plot.county_patches_from flat_map].
  rewrite county_patch_eq. cbn [Plot.obind]. rewrite IH. reflexivity.
Qed.

Lemma in_patch_of (i i' geoid : Z) (v : Q) :
  In (i, v) (Plot.patch_of county_geoid good_i hours (i', geoid)) <->
  i = i' /\ exists k, Plot.first_match county_geoid good_i geoid k
                      /\ In k good_i /\ v = nth (Z.to_nat k) hours 0%Q.
Proof.
  unfold Plot.patch_of, Plot.first_match.
  set (mask := map (fun l => nth (Z.to_nat l) county_geoid 0 =? geoid) good_i).
  assert (Hmask : forall k, 0 <= k < Z.of_nat (length good_i) ->
            nth (Z.to_nat k) mask false
            = (nth (Z.to_nat (nth (Z.to_nat k) good_i 0)) county_geoid 0 =? geoid)).
  { intros k Hk. unfold mask.
    apply (nth_map_in (fun l => nth (Z.to_nat l) county_geoid 0 =? geoid) good_i _ 0). lia. }
  assert (Hlen : length mask = length good_i) by apply length_map.
  destruct (Np.nonzero mask) as [| k0 rest] eqn:E.
  - split; [intros [] |]. intros (_ & k & (Hr & Hg & _) & _).
    pose proof (nonzero_empty mask k E) as Hf. rewrite Hlen in Hf. specialize (Hf Hr).
    rewrite Hmask in Hf by exact Hr. apply Z.eqb_neq in Hf. contradiction.
  - destruct (nonzero_head mask k0 rest E) as (Hr0 & Ht0 & Hbefore).
    rewrite Hlen in Hr0. rewrite Hmask in Ht0 by exact Hr0. apply Z.eqb_eq in Ht0.
    assert (Hfirst : forall k, (0 <= k < Z.of_nat (length good_i)
                       /\ nth (Z.to_nat (nth (Z.to_nat k) good_i 0)) county_geoid 0 = geoid
                       /\ (forall k', 0 <= k' < k ->
                             nth (Z.to_nat (nth (Z.to_nat k') good_i 0)) county_geoid 0 <> geoid))
                      -> k = k0).
    { intros k (Hr & Hg & Hb).
      destruct (Z.lt_trichotomy k k0) as [Hlt | [-> | Hgt]]; [| reflexivity |].
      - specialize (Hbefore k (conj (proj1 Hr) Hlt)).
        rewrite Hmask in Hbefore by exact Hr. apply Z.eqb_neq in Hbefore. contradiction.
      - exfalso. apply (Hb k0); [lia | exact Ht0]. }
    destruct (Plot.contains k0 good_i) eqn:C.
    + apply contains_in in C. split.
      * intros [H | []]. inversion H; subst. split; [reflexivity |].
        exists k0. split; [| split; [exact C | reflexivity]].
        split; [exact Hr0 |]. split; [reflexivity |].
        intros k' Hk'. specialize (Hbefore k' Hk').
        rewrite Hmask in Hbefore by lia. now apply Z.eqb_neq in Hbefore.
      * intros (-> & k & Hk & _ & ->). rewrite (Hfirst k Hk). now left.
    + split; [intros [] |]. intros (_ & k & Hk & Hin & _).
      rewrite (Hfirst k Hk) in Hin. apply contains_in in Hin. congruence.
Qed.

Lemma in_county_patches (counties_info : list Z) (i : Z) (v : Q) :
  In (i, v) (flat_map (Plot.patch_of county_geoid good_i hours) (enumerate counties_info)) <->
  exists geoid k,
    0 <= i /\ nth_error counties_info (Z.to_nat i) = Some geoid
    /\ Plot.first_match county_geoid good_i geoid k
    /\ In k good_i
    /\ nth_error hours (Z.to_nat k) = Some v.
Proof.
  rewrite in_flat_map. split.
  - intros ([i' geoid] & Hen & Hin). apply in_patch_of in Hin.
    destruct Hin as (-> & k & Hk & Hgood & ->).
    apply in_enumerate in Hen. exists geoid, k.
    split; [lia |]. split; [tauto |]. split; [exact Hk |]. split; [exact Hgood |].
    apply nth_error_nth'. destruct Hk as [Hr _]. lia.
  - intros (geoid & k & Hi & Hn & Hk & Hgood & Hv). exists (i, geoid). split.
    + apply in_enumerate. split; [| exact Hn].
      assert (Z.to_nat i < length counties_info)%nat by (apply nth_error_Some; congruence).
      lia.
    + apply in_patch_of. split; [reflexivity |]. exists k.
      split; [exact Hk |]. split; [exact Hgood |].
      symmetry. now apply nth_error_nth.
Qed.

End Patches.

(** X7.  When the indices of [good_i] are rows of the county table and there
    is one hour per index, the loop over the county shapes raises nothing,
    and it adds a patch for the shape at place [i] with the value [v] exactly
    when: some position of [good_i] holds a county with the shape's GEOID; the
    first such position, [k], is itself one of the values of [good_i]; and [v]
    is the hour at position [k]. *)
Theorem county_patches_colour_the_first_match
  (county_geoid good_i : list Z) (hours : list Q) (counties_info : list Z) :
  Forall (fun l => 0 <= l < Z.of_nat (length county_geoid)) good_i ->
  length hours = length good_i ->
  exists patches,
    Plot.county_patches county_geoid good_i hours counties_info = Plot.Done patches
    /\ (forall i v,
           In (i, v) patches <->
           exists geoid k,
             0 <= i /\ nth_error counties_info (Z.to_nat i) = Some geoid
             /\ Plot.first_match county_geoid good_i geoid k
             /\ In k good_i
             /\ nth_error hours (Z.to_nat k) = Some v).
Proof.
  intros Hlab Hlen. eexists. split.
  - apply county_patches_eq; assumption.
  - intros i v. apply in_county_patches; assumption.
Qed.

Lemma county_patches_colour_the_first_match_witness :
  exists patches,
    Plot.county_patches [101; 102; 103; 104] [0; 3] [13; 14]%Q [104; 101; 999]
    = Plot.Done patches
    /\ In (1, 13%Q) patches.
Proof.
  assert (Hlab : Forall (fun l => 0 <= l < Z.of_nat (length [101; 102; 103; 104])) [0; 3])
    by (repeat constructor; cbn; lia).
  assert (Hlen : length [13; 14]%Q = length [0; 3]) by reflexivity.
  destruct (county_patches_colour_the_first_match [101; 102; 103; 104] [0; 3] [13; 14]%Q
              [104; 101; 999] Hlab Hlen) as (patches & Hrun & Hin).
  exists patches. split; [exact Hrun |].
  apply Hin. exists 101, 0. split; [lia |]. split; [reflexivity |].
  split; [| split; [now left | reflexivity]].
  unfold Plot.first_match. cbn. split; [lia |]. split; [reflexivity | intros k' Hk'; lia].
Defined.

Lemma first_occurrence (g : Z) (l : list Z) :
  In g l ->
  exists k, 0 <= k < Z.of_nat (length l)
            /\ nth (Z.to_nat k) l 0 = g
            /\ (forall k', 0 <= k' < k -> nth (Z.to_nat k') l 0 <> g).
Proof.
  induction l as [| a l IH]; intros Hin; [destruct Hin |].
  destruct (Z.eq_dec a g) as [-> | Hne].
  - exists 0. cbn [length]. split; [lia |]. split; [reflexivity | intros k' Hk'; lia].
  - destruct Hin as [-> | Hin]; [congruence |].
    destruct (IH Hin) as (k & Hr & Hg & Hb).
    exists (k + 1). cbn [length]. split; [lia |].
    replace (Z.to_nat (k + 1)) with (S (Z.to_nat k)) by lia. split; [exact Hg |].
    intros k' Hk'. destruct (Z.eq_dec k' 0) as [-> | Hk0]; [exact Hne |].
    replace (Z.to_nat k') with (S (Z.to_nat (k' - 1))) by lia. cbn [nth].
    apply Hb. lia.
Qed.

Lemma nth_arange_Z (n : nat) (k : Z) :
  0 <= k < Z.of_nat n -> nth (Z.to_nat k) (Np.arange n) 0 = k.
Proof. intros Hk. rewrite nth_arange by lia. lia. Qed.

(** X8.  When no position was skipped ([good_i] is 0, 1, ..., P-1 for the P
    rows of the county table), the loop raises nothing and a shape is
    coloured exactly when its GEOID is in the county table; the value of its
    colour is the hour of the first row with that GEOID. *)
Theorem county_patches_colour_every_listed_county
  (county_geoid : list Z) (hours : list Q) (counties_info : list Z) :
  length hours = length county_geoid ->
  exists patches,
    Plot.county_patches county_geoid (Np.arange (length county_geoid)) hours counties_info
    = Plot.Done patches
    /\ (forall i geoid,
           0 <= i -> nth_error counties_info (Z.to_nat i) = Some geoid ->
           ((exists v, In (i, v) patches) <-> In geoid county_geoid))
    /\ (forall i v,
           In (i, v) patches ->
           exists geoid c,
             nth_error counties_info (Z.to_nat i) = Some geoid
             /\ nth_error county_geoid (Z.to_nat c) = Some geoid
             /\ 0 <= c
             /\ (forall c', 0 <= c' < c -> nth (Z.to_nat c') county_geoid 0 <> geoid)
             /\ nth_error hours (Z.to_nat c) = Some v).
Proof.
  intros Hlen.
  set (good_i := Np.arange (length county_geoid)).
  assert (Hlab : Forall (fun l => 0 <= l < Z.of_nat (length county_geoid)) good_i).
  { apply Forall_forall. intros l Hl. now apply in_arange in Hl. }
  assert (Hlen' : length hours = length good_i) by (unfold good_i; now rewrite length_arange).
  assert (Hgood : forall k, 0 <= k < Z.of_nat (length county_geoid) ->
                            nth (Z.to_nat k) good_i 0 = k).
  { intros k Hk. now apply nth_arange_Z. }
  assert (Hlg : length good_i = length county_geoid) by apply length_arange.
  eexists. split; [apply county_patches_eq; assumption |]. split.
  - intros i geoid Hi Hn. split.
    + intros (v & Hin). apply in_county_patches in Hin; [| assumption].
      destruct Hin as (geoid' & k & _ & Hn' & (Hr & Hg & _) & _).
      assert (E : geoid' = geoid) by congruence. rewrite E in Hg. clear E.
      rewrite Hlg in Hr. rewrite Hgood in Hg by exact Hr.
      rewrite <- Hg. apply nth_In. lia.
    + intros Hin. destruct (first_occurrence geoid county_geoid Hin) as (k & Hr & Hg & Hb).
      exists (nth (Z.to_nat k) hours 0%Q). apply in_county_patches; [assumption |].
      exists geoid, k. split; [exact Hi |]. split; [exact Hn |].
      split; [| split].
      * unfold Plot.first_match. rewrite Hlg. split; [exact Hr |].
        rewrite Hgood by exact Hr. split; [exact Hg |].
        intros k' Hk'. rewrite Hgood by lia. now apply Hb.
      * apply in_arange. exact Hr.
      * apply nth_error_nth'. lia.
  - intros i v Hin. apply in_county_patches in Hin; [| assumption].
    destruct Hin as (geoid & k & _ & Hn & (Hr & Hg & Hb) & _ & Hv).
    rewrite Hlg in Hr. rewrite Hgood in Hg by exact Hr.
    exists geoid, k. split; [exact Hn |].
    split; [rewrite <- Hg; apply nth_error_nth'; lia |].
    split; [lia |]. split; [| exact Hv].
    intros c' Hc'. specialize (Hb c' Hc'). rewrite Hgood in Hb by lia. exact Hb.
Qed.

Lemma county_patches_colour_every_listed_county_witness :
  exists patches,
    Plot.county_patches [101; 102; 103; 104] (Np.arange 4) [13; 14; 15; 16]%Q [104; 101; 999]
    = Plot.Done patches
    /\ (exists v, In (0, v) patches).
Proof.
  assert (Hlen : length [13; 14; 15; 16]%Q = length [101; 102; 103; 104]) by reflexivity.
  destruct (county_patches_colour_every_listed_county [101; 102; 103; 104]
              [13; 14; 15; 16]%Q [104; 101; 999] Hlen) as (patches & Hrun & Hiff & _).
  exists patches. split; [exact Hrun |].
  assert (H0 : 0 <= 0) by lia.
  apply (proj2 (Hiff 0 104 H0 eq_refl)). cbn. tauto.
Defined.

(** X9.  A shape whose county does have a sunset hour is left without colour
    when the place [k] of that county in [good_i] is not itself one of the
    values of [good_i] (the test [match_idx[0] in good_i] compares a place in
    [good_i] with the row numbers [good_i] holds).  In particular, when row 0
    has no sunset, the first county that has one is never coloured. *)
Theorem county_with_a_sunset_may_stay_blank
  (county_geoid good_i : list Z) (hours : list Q) (counties_info : list Z)
  (i geoid k : Z) :
  Forall (fun l => 0 <= l < Z.of_nat (length county_geoid)) good_i ->
  length hours = length good_i ->
  nth_error counties_info (Z.to_nat i) = Some geoid ->
  Plot.first_match county_geoid good_i geoid k ->
  ~ In k good_i ->
  exists patches hour,
    Plot.county_patches county_geoid good_i hours counties_info = Plot.Done patches
    /\ nth_error hours (Z.to_nat k) = Some hour
    /\ (forall v, ~ In (i, v) patches).
Proof.
  intros Hlab Hlen Hn Hk Hout.
  exists (flat_map (Plot.patch_of county_geoid good_i hours) (enumerate counties_info)),
    (nth (Z.to_nat k) hours 0%Q).
  split; [apply county_patches_eq; assumption |].
  split; [apply nth_error_nth'; destruct Hk as [Hr _]; lia |].
  intros v Hin. apply in_county_patches in Hin; [| assumption].
  destruct Hin as (geoid' & k' & _ & Hn' & Hk' & Hgood & _).
  assert (E : geoid' = geoid) by congruence. rewrite E in Hk'. clear E.
  assert (k' = k).
  { destruct Hk as (Hr & Hg & Hb), Hk' as (Hr' & Hg' & Hb').
    destruct (Z.lt_trichotomy k' k) as [Hlt | [E | Hgt]]; [| exact E |].
    - exfalso. apply (Hb k'); [lia | exact Hg'].
    - exfalso. apply (Hb' k); [lia | exact Hg]. }
  subst k'. contradiction.
Qed.

Lemma county_with_a_sunset_may_stay_blank_witness :
  exists patches hour,
    Plot.county_patches [101; 102; 103; 104] [0; 3] [13; 14]%Q [104; 101; 999]
    = Plot.Done patches
    /\ nth_error [13; 14]%Q (Z.to_nat 1) = Some hour
    /\ (forall v, ~ In (0, v) patches).
Proof.
  assert (Hlab : Forall (fun l => 0 <= l < Z.of_nat (length [101; 102; 103; 104])) [0; 3])
    by (repeat constructor; cbn; lia).
  assert (Hlen : length [13; 14]%Q = length [0; 3]) by reflexivity.
  assert (Hn : nth_error [104; 101; 999] (Z.to_nat 0) = Some 104) by reflexivity.
  assert (Hk : Plot.first_match [101; 102; 103; 104] [0; 3] 104 1).
  { unfold Plot.first_match. cbn. split; [lia |]. split; [reflexivity |].
    intros k' Hk'. assert (k' = 0) by lia. subst k'. cbn. discriminate. }
  assert (Hout : ~ In 1 [0; 3]) by (cbn; intros [H | [H | []]]; discriminate H).
  exact (county_with_a_sunset_may_stay_blank [101; 102; 103; 104] [0; 3] [13; 14]%Q
           [104; 101; 999] 0 104 1 Hlab Hlen Hn Hk Hout).
Defined.

(** ** X10: from [sunset_time] to the patches *)

(** X10.  Take what [sunset_time] returns for locations that are, row for
    row, those of the county table.  Then the decimal hours and the loop over
    the county shapes raise nothing, and every patch is for a shape whose
    GEOID is that of a returned position, with a value in [0, 24) that is the
    decimal hour of a returned timestamp. *)
Theorem patches_follow_from_sunset_time
  (sun_alt : EarthLocation -> Q -> float) (locs : list EarthLocation)
  (time : Q) (n_time : nat) (nb : Notebook)
  (good_i : list Z) (sunsets : list Pytz.datetime)
  (county_geoid counties_info : list Z) :
  snd (sunset_time sun_alt locs time n_time nb) = Ok (good_i, sunsets) ->
  length county_geoid = length locs ->
  exists patches,
    Plot.county_patches county_geoid good_i (Plot.sunset_hours sunsets) counties_info
    = Plot.Done patches
    /\ (forall i v,
           In (i, v) patches ->
           (0 <= v)%Q /\ (v < 24)%Q
           /\ exists geoid k c,
               nth_error counties_info (Z.to_nat i) = Some geoid
               /\ nth_error good_i (Z.to_nat k) = Some c
               /\ nth_error county_geoid (Z.to_nat c) = Some geoid
               /\ nth_error (Plot.sunset_hours sunsets) (Z.to_nat k) = Some v).
Proof.
  intros Hret Hrows.
  rewrite sunset_time_eq in Hret. cbn [snd] in Hret. cbv zeta in Hret.
  set (grid := time_grid time n_time) in *.
  set (w := winners sun_alt grid locs) in *.
  destruct (forallb (in_table (tzs nb)) w); [| discriminate Hret].
  inversion Hret; subst good_i sunsets. clear Hret.
  assert (Hlab : Forall (fun l => 0 <= l < Z.of_nat (length county_geoid)) (map fst w)).
  { apply Forall_forall. intros l Hl. apply in_map_iff in Hl.
    destruct Hl as ([i j] & <- & Hin). apply winners_range in Hin. cbn [fst]. lia. }
  assert (Hlen : length (Plot.sunset_hours (map (local_time grid (tzs nb)) w))
                 = length (map fst w)).
  { unfold Plot.sunset_hours. now rewrite !length_map. }
  eexists. split; [apply county_patches_eq; assumption |].
  intros i v Hin. apply in_county_patches in Hin; [| assumption].
  destruct Hin as (geoid & k & _ & Hn & (Hr & Hg & _) & _ & Hv).
  pose proof (sunset_hours_in_day (map (local_time grid (tzs nb)) w)) as Hday.
  rewrite Forall_forall in Hday.
  destruct (Hday v (nth_error_In _ _ Hv)) as [H0 H24].
  split; [exact H0 |]. split; [exact H24 |].
  exists geoid, k, (nth (Z.to_nat k) (map fst w) 0).
  split; [exact Hn |].
  split; [apply nth_error_nth'; lia |].
  split; [| exact Hv].
  rewrite <- Hg. apply nth_error_nth'.
  rewrite Forall_forall in Hlab.
  assert (Hc : In (nth (Z.to_nat k) (map fst w) 0) (map fst w)) by (apply nth_In; lia).
  specialize (Hlab _ Hc). lia.
Qed.

Lemma patches_follow_from_sunset_time_witness :
  exists patches,
    Plot.county_patches [101; 102; 103; 104] Demo.good_i (Plot.sunset_hours Demo.sunsets)
      [104; 101; 999]
    = Plot.Done patches.
Proof.
  assert (Hrun : snd (sunset_time Demo.sun_alt Demo.locs (midnight 10) 9 Demo.nb)
                 = Ok (Demo.good_i, Demo.sunsets)) by (rewrite demo_run; reflexivity).
  assert (Hrows : length [101; 102; 103; 104] = length Demo.locs) by reflexivity.
  destruct (patches_follow_from_sunset_time Demo.sun_alt Demo.locs (midnight 10) 9 Demo.nb
              Demo.good_i Demo.sunsets [101; 102; 103; 104] [104; 101; 999] Hrun Hrows)
    as (patches & Hp & _).
  exists patches. exact Hp.
Defined.

(** ** X11, X12: neighbouring samples and coarse grids *)

Lemma SFcompare_antisym (x y : SpecFloat.spec_float) :
  SpecFloat.SFcompare y x = option_map CompOpp (SpecFloat.SFcompare x y).
Proof.
  destruct x as [sx | sx | | sx mx ex], y as [sy | sy | | sy my ey]; cbn;
    try reflexivity;
    try (destruct sx; reflexivity); try (destruct sy; reflexivity);
    try (destruct sx, sy; reflexivity).
  destruct sx, sy; try reflexivity.
  - rewrite (Z.compare_antisym ex ey). destruct (ex ?= ey); cbn; try reflexivity.
    f_equal. rewrite CompOpp_involutive.
    exact (Pos.compare_cont_antisym my mx Eq).
  - rewrite (Z.compare_antisym ex ey). destruct (ex ?= ey); cbn; try reflexivity.
    f_equal. symmetry. exact (Pos.compare_cont_antisym mx my Eq).
Qed.

Lemma ltb_asym (x y : float) : (x <? y)%float = true -> (y <? x)%float = false.
Proof.
  rewrite !ltb_spec. unfold SpecFloat.SFltb. rewrite (SFcompare_antisym (Prim2SF x)).
  destruct (SpecFloat.SFcompare (Prim2SF x) (Prim2SF y)) as [[] |]; cbn; congruence.
Qed.

Lemma argrelmin_isolated (data : list float) (i : Z) :
  In i (Scipy.argrelmin data) ->
  ~ In ((i + 1) mod Z.of_nat (length data)) (Scipy.argrelmin data).
Proof.
  intros Hi Hnext. apply in_argrelmin in Hi. apply in_argrelmin in Hnext.
  destruct Hi as (Hr & Hplus & _). destruct Hnext as (_ & _ & Hminus).
  set (n := Z.of_nat (length data)) in *.
  assert (Hback : ((i + 1) mod n - 1) mod n = i).
  { rewrite Zminus_mod_idemp_l. replace (i + 1 - 1) with i by lia.
    apply Z.mod_small. exact Hr. }
  rewrite Hback in Hminus. apply ltb_asym in Hplus. congruence.
Qed.

Lemma isolated_count (l : list Z) (lo hi : Z) :
  StronglySorted Z.lt l ->
  (forall i, In i l -> lo <= i < hi) ->
  (forall i, In i l -> ~ In (i + 1) l) ->
  2 * Z.of_nat (length l) <= Z.max 0 (hi - lo + 1).
Proof.
  intros Hs. revert lo. induction Hs as [| a l Hs IH Ha]; intros lo Hr Hiso.
  - cbn. lia.
  - rewrite Forall_forall in Ha.
    assert (Hra : lo <= a < hi) by (apply Hr; now left).
    assert (Hl : forall i, In i l -> a + 2 <= i < hi).
    { intros i Hi. specialize (Ha i Hi).
      assert (i <> a + 1) by (intros ->; apply (Hiso a); [now left | now right]).
      assert (lo <= i < hi) by (apply Hr; now right). lia. }
    assert (Hiso' : forall i, In i l -> ~ In (i + 1) l).
    { intros i Hi Hn. apply (Hiso i); now right. }
    specialize (IH (a + 2) Hl Hiso'). cbn [length]. lia.
Qed.

Lemma argrelmin_count (data : list float) :
  2 * Z.of_nat (length (Scipy.argrelmin data)) <= Z.of_nat (length data).
Proof.
  set (n := Z.of_nat (length data)).
  set (idx := Scipy.argrelmin data).
  assert (Hr : forall i, In i idx -> 0 <= i < n).
  { intros i Hi. apply in_argrelmin in Hi. tauto. }
  assert (Hiso : forall i, In i idx -> ~ In (i + 1) idx).
  { intros i Hi Hn. pose proof (argrelmin_isolated data i Hi) as H. fold n idx in H.
    pose proof (Hr _ Hn). rewrite Z.mod_small in H by lia. contradiction. }
  pose proof (argrelmin_sorted data) as Hs. fold idx in Hs.
  destruct (in_dec Z.eq_dec 0 idx) as [H0 | H0].
  - assert (Hlast : ~ In (n - 1) idx).
    { intros Hn. pose proof (argrelmin_isolated data (n - 1) Hn) as H. fold n idx in H.
      pose proof (Hr _ H0). replace (n - 1 + 1) with n in H by lia.
      rewrite Z.mod_same in H by lia. contradiction. }
    pose proof (isolated_count idx 0 (n - 1) Hs) as Hc.
    assert (Hr' : forall i, In i idx -> 0 <= i < n - 1).
    { intros i Hi. pose proof (Hr i Hi).
      assert (i <> n - 1) by (intros ->; contradiction). lia. }
    specialize (Hc Hr' Hiso). pose proof (Hr _ H0). lia.
  - pose proof (isolated_count idx 1 n Hs) as Hc.
    assert (Hr' : forall i, In i idx -> 1 <= i < n).
    { intros i Hi. pose proof (Hr i Hi).
      assert (i <> 0) by (intros ->; contradiction). lia. }
    specialize (Hc Hr' Hiso). unfold n in *. lia.
Qed.

(** X11.  At every position, the minima search never reports two neighbouring
    samples of the grid, the last and the first sample counting as
    neighbours; so a grid of N samples gives at most N/2 candidates for a
    position. *)
Theorem candidates_are_never_neighbours
  (sun_alt : EarthLocation -> Q -> float) (locs : list EarthLocation)
  (time : Q) (n_time : nat) :
  Forall (fun idx =>
            (forall i, In i idx -> ~ In ((i + 1) mod Z.of_nat n_time) idx)
            /\ 2 * Z.of_nat (length idx) <= Z.of_nat n_time)
    (min_idx (alt_degree sun_alt (time_grid time n_time) locs) (length locs)).
Proof.
  rewrite min_idx_alt_degree. apply Forall_forall. intros idx Hidx.
  apply in_map_iff in Hidx. destruct Hidx as (loc & <- & _).
  assert (Hlen : length (map sq (column sun_alt (time_grid time n_time) loc)) = n_time).
  { rewrite length_map, length_column. unfold time_grid.
    now rewrite length_map, length_linspace. }
  split.
  - intros i Hi. pose proof (argrelmin_isolated _ i Hi) as H.
    rewrite Hlen in H. exact H.
  - pose proof (argrelmin_count (map sq (column sun_alt (time_grid time n_time) loc))) as H.
    rewrite Hlen in H. exact H.
Qed.

(** ** X12: a grid of a single sample *)

Lemma flat_map_constant_nil' {A B : Type} (l : list A) :
  flat_map (fun _ : A => @nil B) l = [].
Proof. induction l as [| a l IH]; [reflexivity | exact IH]. Qed.

Lemma winners_coarse (sun_alt : EarthLocation -> Q -> float) (time : Q) (n_time : nat)
  (locs : list EarthLocation) :
  (n_time <= 1)%nat -> winners sun_alt (time_grid time n_time) locs = [].
Proof.
  intros Hn. unfold winners.
  rewrite (flat_map_ext_in' _ (fun _ => [])); [now apply flat_map_constant_nil' |].
  intros [i loc] _. unfold column_sunset.
  destruct (Scipy.argrelmin (map sq (column sun_alt (time_grid time n_time) loc)))
    as [| j l] eqn:E; [reflexivity |].
  exfalso.
  pose proof (argrelmin_count (map sq (column sun_alt (time_grid time n_time) loc))) as Hc.
  rewrite E in Hc. rewrite length_map, length_column in Hc.
  unfold time_grid in Hc. rewrite length_map, length_linspace in Hc.
  cbn [length] in Hc. lia.
Qed.

(** X12.  With at least one location, a call on a grid of a single sample
    finds no sunset anywhere: it returns no index and no timestamp, and
    raises nothing, whatever the timezone table holds. *)
Theorem single_sample_grid_finds_no_sunset
  (sun_alt : EarthLocation -> Q -> float) (locs : list EarthLocation)
  (time : Q) (nb : Notebook) :
  locs <> [] ->
  sunset_time sun_alt locs time 1 nb = (nb, Ok ([], [])).
Proof.
  intros _. rewrite sunset_time_eq. cbv zeta.
  rewrite (winners_coarse sun_alt time 1 locs) by lia. reflexivity.
Qed.

Lemma single_sample_grid_finds_no_sunset_witness :
  sunset_time Demo.sun_alt Demo.locs (midnight 10) 1 Demo.nb = (Demo.nb, Ok ([], [])).
Proof.
  apply single_sample_grid_finds_no_sunset. discriminate.
Defined.

(** ** X13: the returned instants *)

Lemma utc_of_astimezone (z : Pytz.tzinfo) (t : Q) :
  (Pytz.wall (Pytz.astimezone (Pytz.localize_utc t) z)
   - Pytz.utcoffset (Pytz.info (Pytz.astimezone (Pytz.localize_utc t) z)) == t)%Q.
Proof.
  destruct z as [| zone offset | zone before trans]; cbn; unfold Pytz.ZERO; ring.
Qed.

Lemma time_grid_within_day (time : Q) (n_time j : nat) :
  (2 <= n_time)%nat -> (j < n_time)%nat ->
  (time <= nth j (time_grid time n_time) 0)%Q
  /\ (nth j (time_grid time n_time) 0 <= time + 24)%Q.
Proof.
  intros Hn Hj. rewrite nth_time_grid by assumption.
  assert (Hne : ~ (inject_Z (Z.of_nat n_time - 1) == 0)%Q).
  { change 0%Q with (inject_Z 0). rewrite inject_Z_injective. lia. }
  assert (Hstep : (0 < 24 / inject_Z (Z.of_nat n_time - 1))%Q).
  { apply Qlt_shift_div_l.
    - change 0%Q with (inject_Z 0). rewrite <- Zlt_Qlt. lia.
    - rewrite Qmult_0_l. reflexivity. }
  assert (Hfull : (inject_Z (Z.of_nat n_time - 1) * (24 / inject_Z (Z.of_nat n_time - 1))
                   == 24)%Q) by (field; exact Hne).
  assert (H0 : (inject_Z 0 <= inject_Z (Z.of_nat j))%Q) by (rewrite <- Zle_Qle; lia).
  assert (H1 : (inject_Z (Z.of_nat j) <= inject_Z (Z.of_nat n_time - 1))%Q)
    by (rewrite <- Zle_Qle; lia).
  change (inject_Z 0) with 0%Q in H0.
  pose proof (Qmult_le_compat_r _ _ _ H0 (Qlt_le_weak _ _ Hstep)) as Hlo.
  pose proof (Qmult_le_compat_r _ _ _ H1 (Qlt_le_weak _ _ Hstep)) as Hhi.
  rewrite Qmult_0_l in Hlo. rewrite Hfull in Hhi.
  set (x := (inject_Z (Z.of_nat j) * (24 / inject_Z (Z.of_nat n_time - 1)))%Q) in *.
  split; lra.
Qed.

(** X13.  Every timestamp [sunset_time] returns is, once its UTC offset is
    taken off, one of the samples of the time grid, hence a UTC instant
    between 00:00 UTC of the target day and 00:00 UTC of the next day
    (both included), whatever the local date of its wall-clock reading. *)
Theorem returned_instants_are_samples_of_the_utc_day
  (sun_alt : EarthLocation -> Q -> float) (locs : list EarthLocation)
  (time : Q) (n_time : nat) (nb : Notebook)
  (good_i : list Z) (sunsets : list Pytz.datetime) :
  snd (sunset_time sun_alt locs time n_time nb) = Ok (good_i, sunsets) ->
  Forall (fun s =>
            exists j : nat,
              (j < n_time)%nat
              /\ (Pytz.wall s - Pytz.utcoffset (Pytz.info s)
                  == nth j (time_grid time n_time) 0)%Q
              /\ (time <= nth j (time_grid time n_time) 0)%Q
              /\ (nth j (time_grid time n_time) 0 <= time + 24)%Q) sunsets.
Proof.
  intros Hret.
  rewrite sunset_time_eq in Hret. cbn [snd] in Hret. cbv zeta in Hret.
  set (grid := time_grid time n_time) in *.
  destruct (forallb (in_table (tzs nb)) (winners sun_alt grid locs)); [| discriminate Hret].
  inversion Hret; subst good_i sunsets. clear Hret.
  apply Forall_forall. intros s Hs. apply in_map_iff in Hs.
  destruct Hs as ([i j] & <- & Hin).
  destruct (Nat.le_gt_cases n_time 1) as [Hcoarse | Hfine].
  { unfold grid in Hin. rewrite winners_coarse in Hin by exact Hcoarse. destruct Hin. }
  apply winners_range in Hin. destruct Hin as [_ Hj].
  assert (Hlen : length grid = n_time).
  { unfold grid, time_grid. now rewrite length_map, length_linspace. }
  rewrite Hlen in Hj.
  exists (Z.to_nat j). split; [lia |].
  split; [unfold local_time; cbn [fst snd]; apply utc_of_astimezone |].
  apply time_grid_within_day; lia.
Qed.

Lemma returned_instants_are_samples_of_the_utc_day_witness :
  Forall (fun s =>
            exists j : nat,
              (j < 9)%nat
              /\ (Pytz.wall s - Pytz.utcoffset (Pytz.info s)
                  == nth j (time_grid (midnight 10) 9) 0)%Q
              /\ (midnight 10 <= nth j (time_grid (midnight 10) 9) 0)%Q
              /\ (nth j (time_grid (midnight 10) 9) 0 <= midnight 10 + 24)%Q) Demo.sunsets.
Proof.
  assert (Hrun : snd (sunset_time Demo.sun_alt Demo.locs (midnight 10) 9 Demo.nb)
                 = Ok (Demo.good_i, Demo.sunsets)) by (rewrite demo_run; reflexivity).
  exact (returned_instants_are_samples_of_the_utc_day Demo.sun_alt Demo.locs (midnight 10) 9
           Demo.nb Demo.good_i Demo.sunsets Hrun).
Defined.

(** ** X14: a batch in two calls *)

Lemma arange_from (n m : nat) :
  map Z.of_nat (seq n m) = map (fun i => i + Z.of_nat n) (Np.arange m).
Proof.
  unfold Np.arange. induction n as [| n IH].
  - rewrite map_map. apply map_ext. intros i. cbn. lia.
  - rewrite <- seq_shift, map_map.
    rewrite (map_ext (fun x => Z.of_nat (S x)) (fun x => Z.of_nat x + 1)) by (intros; lia).
    rewrite <- (map_map Z.of_nat (fun z => z + 1)), IH, map_map.
    apply map_ext. intros i. lia.
Qed.

Lemma arange_app (n m : nat) :
  Np.arange (n + m) = Np.arange n ++ map (fun i => i + Z.of_nat n) (Np.arange m).
Proof.
  unfold Np.arange at 1 2. rewrite seq_app, map_app. f_equal. apply arange_from.
Qed.

Lemma combine_append {A B : Type} (a1 a2 : list A) (b1 b2 : list B) :
  length a1 = length b1 ->
  combine (a1 ++ a2) (b1 ++ b2) = combine a1 b1 ++ combine a2 b2.
Proof.
  revert b1. induction a1 as [| x a1 IH]; intros [| y b1] H; cbn in *; try lia.
  - reflexivity.
  - f_equal. apply IH. lia.
Qed.

Lemma enumerate_app {A : Type} (l1 l2 : list A) :
  enumerate (l1 ++ l2) =
  enumerate l1 ++ map (fun '(i, x) => (i + Z.of_nat (length l1), x)) (enumerate l2).
Proof.
  unfold enumerate. rewrite length_app, arange_app.
  rewrite combine_append by now rewrite length_arange.
  f_equal.
  generalize (Np.arange (length l2)) as ks. generalize (Z.of_nat (length l1)) as s.
  intros s.
  induction l2 as [| x l2 IH]; intros [| k ks]; cbn; try reflexivity.
  now rewrite IH.
Qed.

Lemma winners_app (sun_alt : EarthLocation -> Q -> float) (grid : list Q)
  (l1 l2 : list EarthLocation) :
  winners sun_alt grid (l1 ++ l2) =
  winners sun_alt grid l1
  ++ map (fun ij => (fst ij + Z.of_nat (length l1), snd ij)) (winners sun_alt grid l2).
Proof.
  unfold winners. rewrite enumerate_app, flat_map_app. f_equal.
  induction (enumerate l2) as [| [i loc] rest IH]; [reflexivity |].
  cbn [map flat_map]. rewrite map_app, IH. f_equal.
  now destruct (column_sunset (column sun_alt grid loc)).
Qed.

Lemma nth_skipn_shift {A : Type} (l : list A) (m i : nat) (d : A) :
  nth i (skipn m l) d = nth (i + m) l d.
Proof.
  revert l. induction m as [| m IH]; intros l.
  - now rewrite Nat.add_0_r.
  - destruct l as [| a l].
    + cbn [skipn]. generalize (i + S m)%nat as k. intros k. now destruct i, k.
    + cbn [skipn]. rewrite IH. replace (i + S m)%nat with (S (i + m)) by lia. reflexivity.
Qed.

(** X14.  A batch can be cut in two.  Whenever the calls on [l1], on [l2]
    (with the timezone table read from row [len(l1)] on) and on [l1 ++ l2]
    all return, the call on [l1 ++ l2] returns what the call on [l1] returns,
    followed by what the call on [l2] returns, the indices of the latter
    shifted by [len(l1)]. *)
Theorem batch_splits_in_two
  (sun_alt : EarthLocation -> Q -> float) (l1 l2 : list EarthLocation)
  (time : Q) (n_time : nat) (nb : Notebook)
  (g1 g2 g : list Z) (s1 s2 s : list Pytz.datetime) :
  let nb2 := mk_notebook (county_locs nb) (skipn (length l1) (tzs nb)) (day nb) in
  snd (sunset_time sun_alt l1 time n_time nb) = Ok (g1, s1) ->
  snd (sunset_time sun_alt l2 time n_time nb2) = Ok (g2, s2) ->
  snd (sunset_time sun_alt (l1 ++ l2) time n_time nb) = Ok (g, s) ->
  g = g1 ++ map (fun i => i + Z.of_nat (length l1)) g2
  /\ s = s1 ++ s2.
Proof.
  intros nb2 H1 H2 H.
  rewrite sunset_time_eq in H1, H2, H. cbn [snd] in H1, H2, H. cbv zeta in H1, H2, H.
  set (grid := time_grid time n_time) in *.
  destruct (forallb (in_table (tzs nb)) (winners sun_alt grid l1)); [| discriminate H1].
  destruct (forallb (in_table (tzs nb2)) (winners sun_alt grid l2)); [| discriminate H2].
  destruct (forallb (in_table (tzs nb)) (winners sun_alt grid (l1 ++ l2)));
    [| discriminate H].
  inversion H1; subst g1 s1. inversion H2; subst g2 s2. inversion H; subst g s.
  clear H1 H2 H.
  rewrite winners_app, !map_app, !map_map. cbn [fst snd].
  split; [reflexivity |]. apply f_equal.
  apply map_ext_in. intros [i j] Hin. apply winners_range in Hin.
  unfold local_time, nb2. cbn [fst snd tzs].
  rewrite nth_skipn_shift. do 2 f_equal. lia.
Qed.

Lemma batch_splits_in_two_witness :
  Demo.good_i = [0] ++ map (fun i => i + Z.of_nat (length [Demo.here; Demo.pole])) [1]
  /\ Demo.sunsets
     = [local_time Demo.grid (tzs Demo.nb) (0, 6)]
       ++ [local_time Demo.grid (skipn 2 (tzs Demo.nb)) (1, 6)].
Proof.
  assert (H1 : snd (sunset_time Demo.sun_alt [Demo.here; Demo.pole] (midnight 10) 9 Demo.nb)
               = Ok ([0], [local_time Demo.grid (tzs Demo.nb) (0, 6)]))
    by (vm_compute; reflexivity).
  assert (H2 : snd (sunset_time Demo.sun_alt [Demo.nowhere; Demo.here] (midnight 10) 9
                      (mk_notebook (county_locs Demo.nb)
                         (skipn (length [Demo.here; Demo.pole]) (tzs Demo.nb))
                         (day Demo.nb)))
               = Ok ([1], [local_time Demo.grid (skipn 2 (tzs Demo.nb)) (1, 6)]))
    by (vm_compute; reflexivity).
  assert (H : snd (sunset_time Demo.sun_alt ([Demo.here; Demo.pole] ++ [Demo.nowhere; Demo.here])
                     (midnight 10) 9 Demo.nb)
              = Ok (Demo.good_i, Demo.sunsets))
    by (vm_compute; reflexivity).
  exact (batch_splits_in_two Demo.sun_alt [Demo.here; Demo.pole] [Demo.nowhere; Demo.here]
           (midnight 10) 9 Demo.nb _ _ _ _ _ _ H1 H2 H).
Defined.

(** ** X15: an altitude that repeats after 24 hours *)

Lemma ltb_irrefl (x : float) : (x <? x)%float = false.
Proof.
  destruct (x <? x)%float eqn:E; [| reflexivity].
  pose proof (ltb_asym x x E). congruence.
Qed.

(** X15.  The grid holds both 00:00 of the day and 00:00 of the next day, and
    the minima search takes them for neighbours.  So at a location where the
    squared altitude is the same at both, neither the first nor the last
    sample is a candidate: a sunset that falls on them is not found. *)
Theorem equal_ends_are_no_candidates
  (sun_alt : EarthLocation -> Q -> float) (time : Q) (n_time : nat) (loc : EarthLocation) :
  let grid := time_grid time n_time in
  let value := map sq (column sun_alt grid loc) in
  (2 <= n_time)%nat ->
  at_ value 0 = at_ value (Z.of_nat n_time - 1) ->
  ~ In 0 (Scipy.argrelmin value) /\ ~ In (Z.of_nat n_time - 1) (Scipy.argrelmin value).
Proof.
  intros grid value Hn Hends.
  assert (Hlen : Z.of_nat (length value) = Z.of_nat n_time).
  { unfold value, grid, time_grid.
    now rewrite length_map, length_column, length_map, length_linspace. }
  split; intros Hin; apply in_argrelmin in Hin; rewrite Hlen in Hin.
  - destruct Hin as (_ & _ & Hminus).
    replace ((0 - 1) mod Z.of_nat n_time) with (Z.of_nat n_time - 1) in Hminus.
    + rewrite <- Hends, ltb_irrefl in Hminus. discriminate Hminus.
    + symmetry. rewrite <- (Z.mod_add _ 1) by lia.
      replace (0 - 1 + 1 * Z.of_nat n_time) with (Z.of_nat n_time - 1) by lia.
      apply Z.mod_small. lia.
  - destruct Hin as (_ & Hplus & _).
    replace ((Z.of_nat n_time - 1 + 1) mod Z.of_nat n_time) with 0 in Hplus.
    + rewrite <- Hends, ltb_irrefl in Hplus. discriminate Hplus.
    + replace (Z.of_nat n_time - 1 + 1) with (Z.of_nat n_time) by lia.
      symmetry. apply Z.mod_same. lia.
Qed.

Lemma equal_ends_are_no_candidates_witness :
  ~ In 0 (Scipy.argrelmin (map sq (column Demo.sun_alt (time_grid (midnight 10) 9) Demo.here)))
  /\ ~ In (Z.of_nat 9 - 1)
       (Scipy.argrelmin (map sq (column Demo.sun_alt (time_grid (midnight 10) 9) Demo.here))).
Proof.
  assert (Hn : (2 <= 9)%nat) by lia.
  exact (equal_ends_are_no_candidates Demo.sun_alt (midnight 10) 9 Demo.here Hn eq_refl).
Defined.
